(** * StockAnalysis: 30-day average volume and intraday volume crossings

    A shallow embedding of [src/Code.py].  The pandas tables are lists of
    records in row order, the two dictionaries ([avg_volumes], [results])
    are finite maps keyed by (stock name, date string), and the object
    attributes [self.daily_data] / [self.intraday_data] form the record
    [StockAnalysis]; a method that assigns to an attribute returns the new
    object next to its result.

    Numbers.  Volumes and traded quantities are integers ([Z]).  The result
    of [Series.mean] is a float: it is modelled by an exact rational, with
    the one non-number a float can be ([NaN], the mean of an empty column)
    kept apart, because every comparison against it is false. *)

From Stdlib Require Import ZArith QArith Qcanon OrdersEx.
From stdpp Require Import base option list sorting numbers strings gmap.

Local Open Scope Z_scope.

(** ** Data model *)

(** A [pd.Timestamp] at day precision: the day number since 1970-01-01. *)
Abbreviation Timestamp := Z (only parsing).

(** A [datetime.time] read with [%H:%M:%S]: the second of the day. *)
Abbreviation TimeOfDay := Z (only parsing).

Definition mk_time (h m s : Z) : TimeOfDay := h * 3600 + m * 60 + s.

(** One row of [self.daily_data]. *)
Record DailyRecord := mkDaily {
  d_stock : string;      (* 'Stock Name' *)
  d_date : Timestamp;    (* 'Date' *)
  d_volume : Z           (* 'Volume' *)
}.

(** One row of [self.intraday_data]. *)
Record IntradayTick := mkTick {
  t_stock : string;      (* 'Stock Name' *)
  t_date : Timestamp;    (* 'Date' *)
  t_time : TimeOfDay;    (* 'Time' *)
  t_qty : Z              (* 'Last Traded Quantity' *)
}.

(** A row of [daily_stock_data] once the column ['cumulative_volume'] has
    been added to it. *)
Record RollingRow := mkRow {
  r_tick : IntradayTick;
  cumulative_volume : Z
}.

(** The object: the two tables [__init__] loads. *)
Record StockAnalysis := mkSelf {
  daily_data : list DailyRecord;
  intraday_data : list IntradayTick
}.

(** A Python number as the baseline can be: a float that is a number, or NaN. *)
Inductive number :=
  | NaN
  | Num (q : Qc).

Global Instance DailyRecord_eq_dec : EqDecision DailyRecord.
Proof. solve_decision. Defined.
Global Instance IntradayTick_eq_dec : EqDecision IntradayTick.
Proof. solve_decision. Defined.
Global Instance RollingRow_eq_dec : EqDecision RollingRow.
Proof. solve_decision. Defined.
Global Instance number_eq_dec : EqDecision number.
Proof. solve_decision. Defined.

(** [pd.Timestamp(Date)] on the two date strings the program uses. *)
Definition pd_Timestamp (Date : string) : Timestamp :=
  if decide (Date = "19-04-2024") then 19832
  else if decide (Date = "22-04-2024") then 19835
  else 0.

(** The dates of the inner loop, [for Date in ['19-04-2024', '22-04-2024']]. *)
Definition reference_dates : list string := ["19-04-2024"; "22-04-2024"].

(** ** Column operations *)

Definition Zsum (l : list Z) : Z := foldr Z.add 0 l.

(** [Series.mean()]: NaN on an empty column. *)
Definition mean (values : list Z) : number :=
  match values with
  | [] => NaN
  | _ => Num (Qc_of_Z (Zsum values) / Qc_of_Z (Z.of_nat (length values)))%Qc
  end.

(** [df.take(indexer)]: the rows at the given positions, in that order. *)
Definition take_rows {A} (indexer : list nat) (rows : list A) : list A :=
  omap (λ i, rows !! i) indexer.

(** [Series.unique()]: the distinct values in order of first appearance. *)
Fixpoint unique (l : list string) : list string :=
  match l with
  | [] => []
  | x :: l' => x :: filter (λ y, y ≠ x) (unique l')
  end.

(** [rolling(window, min_periods=1).sum()] as pandas computes it: one running
    sum; at position [i] the value that left the window (the one at
    [i - window], once [window <= i]) is removed and the new one added. *)
Fixpoint roll_sum_from (window : nat) (values : list Z) (i : nat) (sum_x : Z)
    (rest : list Z) : list Z :=
  match rest with
  | [] => []
  | x :: rest' =>
      let removed :=
        if decide (window ≤ i)%nat then default 0 (values !! (i - window)%nat) else 0 in
      let sum_x' := sum_x - removed + x in
      sum_x' :: roll_sum_from window values (S i) sum_x' rest'
  end.

Definition rolling_sum (window : nat) (values : list Z) : list Z :=
  roll_sum_from window values 0 0 values.

(** [pd.concat(frames, ignore_index=True)]: raises ValueError ("No objects to
    concatenate") on an empty list of frames. *)
Definition pd_concat {A} (frames : list (list A)) : option (list A) :=
  match frames with
  | [] => None
  | _ => Some (concat frames)
  end.

(** [x > y], a cumulative volume against a baseline: never true of NaN. *)
Definition exceeds (x : Z) (y : number) : Prop :=
  match y with
  | NaN => False
  | Num q => (q < Qc_of_Z x)%Qc
  end.

Global Instance exceeds_dec x y : Decision (exceeds x y).
Proof. destruct y; simpl; apply _. Defined.

(** Order of the group keys of [groupby] (sorted stock names). *)
Definition string_le (s1 s2 : string) : Prop := String.leb s1 s2 = true.

Global Instance string_le_dec : RelDecision string_le.
Proof. intros s1 s2. unfold string_le. apply _. Defined.

(** ** The program *)

Section Program.

(** [numpy.argsort(keys, kind='quicksort')], the sort behind
    [DataFrame.sort_values] when no [kind] is given: from the keys to the
    positions in ascending key order.  The program is written over it; what
    numpy promises of it is [ArgsortSpec] below. *)
Variable argsort : list Z → list nat.

(** [df.sort_values(by=..., ascending=...)].  Descending order is pandas'
    [nargsort]: reverse, sort ascending, reverse. *)
Definition sort_values {A} (by_ : A → Z) (ascending : bool) (df : list A) : list A :=
  if ascending then take_rows (argsort (by_ <$> df)) df
  else reverse (take_rows (argsort (by_ <$> reverse df)) (reverse df)).

(** The rows [calculate_30_day_avg] averages:
    the filter, [sort_values(by='Date', ascending=False)] and [head(30)]. *)
Definition filtered_data (self : StockAnalysis) (stock_name : string)
    (target_date : Timestamp) : list DailyRecord :=
  let filtered_data :=
    filter (λ r, d_stock r = stock_name ∧ d_date r < target_date) (daily_data self) in
  take 30 (sort_values d_date false filtered_data).

Definition calculate_30_day_avg (self : StockAnalysis) (stock_name : string)
    (target_date : Timestamp) : number :=
  mean (d_volume <$> filtered_data self stock_name target_date).

Definition get_avg_volumes (self : StockAnalysis) : gmap (string * string) number :=
  foldl (λ avg_volumes stock_name,
           <[(stock_name, "22-04-2024") :=
               calculate_30_day_avg self stock_name (pd_Timestamp "22-04-2024")]>
             (<[(stock_name, "19-04-2024") :=
                 calculate_30_day_avg self stock_name (pd_Timestamp "19-04-2024")]>
                avg_volumes))
        ∅ (unique (d_stock <$> daily_data self)).

Definition market_open : TimeOfDay := mk_time 9 15 0.

(** [df.groupby('Stock Name')]: one group per distinct stock, keys sorted,
    each group holding its rows in table order. *)
Definition groupby (df : list IntradayTick) : list (string * list IntradayTick) :=
  (λ s, (s, filter (λ t, t_stock t = s) df)) <$>
    merge_sort string_le (unique (t_stock <$> df)).

(** Lines 86-93: [daily_stock_data] with its ['cumulative_volume'] column. *)
Definition rolling_series (stock_data : list IntradayTick) (Date : string)
    : list RollingRow :=
  let daily_stock_data := filter (λ t, t_date t = pd_Timestamp Date) stock_data in
  let daily_stock_data := sort_values t_time true daily_stock_data in
  zip_with mkRow daily_stock_data (rolling_sum 3600 (t_qty <$> daily_stock_data)).

(** Line 99: the ['Time'] of the rows whose cumulative volume exceeds the
    average, in row order. *)
Definition exceed_timestamp (daily_stock_data : list RollingRow) (avg_volume : number)
    : list TimeOfDay :=
  (λ r, t_time (r_tick r)) <$>
    filter (λ r, exceeds (cumulative_volume r) avg_volume) daily_stock_data.

(** Lines 112-115: [exceed_timestamp.iloc[0]] when there is one, else [None]. *)
Definition first_exceed (daily_stock_data : list RollingRow) (avg_volume : number)
    : option TimeOfDay :=
  head (exceed_timestamp daily_stock_data avg_volume).

(** Line 107: the rows whose ['Time'] is the first crossing time. *)
Definition first_exceed_row (daily_stock_data : list RollingRow) (t : TimeOfDay)
    : list RollingRow :=
  filter (λ r, t_time (r_tick r) = t) daily_stock_data.

(** Lines 106-109: what is printed for a stock and a date, the time and the
    cumulative volume of the first of these rows; [Some None] when nothing is
    printed, [None] when [iloc[0]] raises. *)
Definition printed_crossing (daily_stock_data : list RollingRow) (avg_volume : number)
    : option (option (TimeOfDay * Z)) :=
  match head (exceed_timestamp daily_stock_data avg_volume) with
  | None => Some None
  | Some t =>
      row ← head (first_exceed_row daily_stock_data t);
      Some (Some (t_time (r_tick row), cumulative_volume row))
  end.

(** What the loops of [analyze_intraday_data] build. *)
Record Accumulated := mkAcc {
  all_rolling_data_19 : list (list RollingRow);
  all_rolling_data_22 : list (list RollingRow);
  results : gmap (string * string) (option TimeOfDay)
}.

(** One pass of the inner loop (lines 85-115) for a group and a date. *)
Definition process_date (avg_volumes : gmap (string * string) number)
    (stock_name : string) (stock_data : list IntradayTick)
    (acc : Accumulated) (Date : string) : Accumulated :=
  let daily_stock_data := rolling_series stock_data Date in
  let avg_volume := default (Num 0) (avg_volumes !! (stock_name, Date)) in
  {| all_rolling_data_19 :=
       if decide (Date = "19-04-2024")
       then all_rolling_data_19 acc ++ [daily_stock_data]
       else all_rolling_data_19 acc;
     all_rolling_data_22 :=
       if decide (Date = "19-04-2024") then all_rolling_data_22 acc
       else if decide (Date = "22-04-2024")
            then all_rolling_data_22 acc ++ [daily_stock_data]
            else all_rolling_data_22 acc;
     results :=
       <[(stock_name, Date) := first_exceed daily_stock_data avg_volume]> (results acc) |}.

Definition process_stock (avg_volumes : gmap (string * string) number)
    (acc : Accumulated) (group : string * list IntradayTick) : Accumulated :=
  foldl (process_date avg_volumes group.1 group.2) acc reference_dates.

(** The value [analyze_intraday_data] returns. *)
Record Analysis := mkAnalysis {
  all_rolling_data_19_df : list RollingRow;
  all_rolling_data_22_df : list RollingRow;
  crossing_results : gmap (string * string) (option TimeOfDay)
}.

(** [analyze_intraday_data]: its result ([None] when [pd.concat] raises) and
    the object afterwards, [self.intraday_data] having been reassigned on
    line 73. *)
Definition analyze_intraday_data (avg_volumes : gmap (string * string) number)
    (self : StockAnalysis) : option Analysis * StockAnalysis :=
  let self :=
    {| daily_data := daily_data self;
       intraday_data := filter (λ t, market_open ≤ t_time t) (intraday_data self) |} in
  let acc :=
    foldl (process_stock avg_volumes) (mkAcc [] [] ∅) (groupby (intraday_data self)) in
  (df19 ← pd_concat (all_rolling_data_19 acc);
   df22 ← pd_concat (all_rolling_data_22 acc);
   Some (mkAnalysis df19 df22 (results acc)),
   self).

(** [run_analysis] up to the call of [save_to_csv]: the tables handed to it. *)
Definition run_analysis (self : StockAnalysis)
    : option (gmap (string * string) number * Analysis) * StockAnalysis :=
  let avg_volumes := get_avg_volumes self in
  let '(analysis, self) := analyze_intraday_data avg_volumes self in
  (a ← analysis; Some (avg_volumes, a), self).

End Program.

(** ** The table of averages as [save_to_csv] reads it *)

(** A Python dict keeps its keys in the order of their first insertion, and
    [save_to_csv] goes through [avg_volumes.items()] in that order: here the
    dict is the list of its items.  [d[k] = v] replaces the value of a key
    that is there, in place, and puts a new key last. *)
Fixpoint setitem {K V} `{EqDecision K} (k : K) (v : V) (d : list (K * V))
    : list (K * V) :=
  match d with
  | [] => [(k, v)]
  | item :: d' =>
      if decide (item.1 = k) then (item.1, v) :: d' else item :: setitem k v d'
  end.

(** [get_avg_volumes], lines 38-42, on such a dict. *)
Definition get_avg_volumes_items (argsort : list Z → list nat) (self : StockAnalysis)
    : list ((string * string) * number) :=
  foldl (λ avg_volumes stock_name,
           setitem (stock_name, "22-04-2024")
             (calculate_30_day_avg argsort self stock_name (pd_Timestamp "22-04-2024"))
             (setitem (stock_name, "19-04-2024")
                (calculate_30_day_avg argsort self stock_name (pd_Timestamp "19-04-2024"))
                avg_volumes))
        [] (unique (d_stock <$> daily_data self)).

(** A row of [avg_volumes_data]. *)
Record AverageVolumeRow := mkAverageVolumeRow {
  av_stock : string;      (* 'Stock Name' *)
  av_date : string;       (* 'Date' *)
  av_volume : number      (* 'Average Volume' *)
}.

(** Lines 49-55 of [save_to_csv]: one row for each item, in order. *)
Definition avg_volumes_data (avg_volumes : list ((string * string) * number))
    : list AverageVolumeRow :=
  (λ item, mkAverageVolumeRow item.1.1 item.1.2 item.2) <$> avg_volumes.

(** * The sort behind [sort_values] *)

(** What numpy documents of [argsort] whatever the [kind]: the result lists
    every position once, and the keys read in that order ascend. *)
Class ArgsortSpec (argsort : list Z → list nat) : Prop := {
  argsort_perm : ∀ keys, argsort keys ≡ₚ seq 0 (length keys);
  argsort_sorted : ∀ keys, Sorted Z.le (take_rows (argsort keys) keys)
}.

(** A sort that meets it: a merge sort of the keys paired with their positions. *)
Definition key_le (a b : Z * nat) : Prop := a.1 ≤ b.1.

Global Instance key_le_dec : RelDecision key_le.
Proof. intros a b. unfold key_le. apply _. Defined.

Definition argsort_merge (keys : list Z) : list nat :=
  (merge_sort key_le (zip keys (seq 0 (length keys)))).*2.

(** ** The default sort of numpy *)

(** [npy_aquicksort], the argsort numpy runs on an object column (the
    ['Time'] column holds [datetime.time] objects) for [kind='quicksort']:
    median-of-three quicksort on the index array [tosort] as long as a range
    holds more than 16 positions; a range of at most 16 positions is finished
    by insertion sort.  The switch to heapsort when the depth allowance
    [cdepth] is used up is not modelled: the result is [None] there. *)
Module npysort.
Section aquicksort.

(** The keys: [v[i]] is the key of row [i]. *)
Variable v : list Z.

Definition key (i : nat) : Z := default 0 (v !! i).

(** [*p] for a position [p] of [tosort]. *)
Definition deref (tosort : list nat) (p : nat) : nat := default 0%nat (tosort !! p).

(** [INTP_SWAP( *p, *q )]. *)
Definition INTP_SWAP (tosort : list nat) (p q : nat) : list nat :=
  <[q := deref tosort p]> (<[p := deref tosort q]> tosort).

(** [cmp(v + ( *p ) * elsize, v + ( *q ) * elsize, arr) < 0]. *)
Definition less (tosort : list nat) (p q : nat) : Prop :=
  key (deref tosort p) < key (deref tosort q).

Global Instance less_dec tosort p q : Decision (less tosort p q).
Proof. unfold less. apply _. Defined.

(** The three conditional swaps that order [*pl], [*pm], [*pr]. *)
Definition median_of_three (tosort : list nat) (pl pm pr : nat) : list nat :=
  let tosort := if decide (less tosort pm pl) then INTP_SWAP tosort pm pl else tosort in
  let tosort := if decide (less tosort pr pm) then INTP_SWAP tosort pr pm else tosort in
  if decide (less tosort pm pl) then INTP_SWAP tosort pm pl else tosort.

(** [do { ++pi; } while (cmp( *pi, vp ) < 0 && pi < pj);] *)
Fixpoint scan_up (fuel : nat) (tosort : list nat) (vp : Z) (pi pj : nat) : nat :=
  let pi := S pi in
  match fuel with
  | O => pi
  | S fuel =>
      if decide (key (deref tosort pi) < vp ∧ (pi < pj)%nat)
      then scan_up fuel tosort vp pi pj else pi
  end.

(** [do { --pj; } while (cmp( vp, *pj ) < 0 && pi < pj);] *)
Fixpoint scan_down (fuel : nat) (tosort : list nat) (vp : Z) (pi pj : nat) : nat :=
  let pj := pred pj in
  match fuel with
  | O => pj
  | S fuel =>
      if decide (vp < key (deref tosort pj) ∧ (pi < pj)%nat)
      then scan_down fuel tosort vp pi pj else pj
  end.

(** The [for (;;)] loop of the partition: scan, stop when the scans meet,
    else swap and go on. *)
Fixpoint partition_loop (fuel : nat) (tosort : list nat) (vp : Z) (pi pj : nat)
    : list nat * nat :=
  let pi := scan_up pj tosort vp pi pj in
  let pj := scan_down pj tosort vp pi pj in
  if decide (pj ≤ pi)%nat then (tosort, pi)
  else match fuel with
       | O => (tosort, pi)
       | S fuel => partition_loop fuel (INTP_SWAP tosort pi pj) vp pi pj
       end.

(** One partition of the range [pl..pr]: the new [tosort] and the final
    position [pi] of the pivot. *)
Definition partition (tosort : list nat) (pl pr : nat) : list nat * nat :=
  let pm := (pl + (pr - pl) / 2)%nat in
  let tosort := median_of_three tosort pl pm pr in
  let vp := key (deref tosort pm) in
  let pj := (pr - 1)%nat in
  let tosort := INTP_SWAP tosort pm pj in
  let '(tosort, pi) := partition_loop (pr - pl) tosort vp pl pj in
  (INTP_SWAP tosort pi (pr - 1), pi).

(** The inner [while] of the insertion sort: move [vi] down from [pj]. *)
Fixpoint shift_down (fuel : nat) (tosort : list nat) (vi : nat) (vp : Z) (pl pj : nat)
    : list nat :=
  match fuel with
  | O => <[pj := vi]> tosort
  | S fuel =>
      if decide ((pl < pj)%nat ∧ vp < key (deref tosort (pred pj)))
      then shift_down fuel (<[pj := deref tosort (pred pj)]> tosort) vi vp pl (pred pj)
      else <[pj := vi]> tosort
  end.

Definition insertion_sort (tosort : list nat) (pl pr : nat) : list nat :=
  foldl (λ tosort pi,
           let vi := deref tosort pi in shift_down pi tosort vi (key vi) pl pi)
        tosort (seq (S pl) (pr - pl)).

Definition SMALL_QUICKSORT : nat := 16.

(** The range [pl..pr] with the depth allowance [cdepth]; [popped] tells a
    range taken from the stack (the allowance is checked there) from the
    smaller part, with which the partition loop goes on at once. *)
Fixpoint sort_range (fuel : nat) (tosort : list nat) (pl pr : nat) (cdepth : Z)
    (popped : bool) : option (list nat) :=
  if decide (popped = true ∧ cdepth < 0) then None
  else if decide (SMALL_QUICKSORT < pr - pl + 1)%nat then
    match fuel with
    | O => None
    | S fuel =>
        let '(tosort, pi) := partition tosort pl pr in
        let cdepth := cdepth - 1 in
        if decide (pi - pl < pr - pi)%nat then
          tosort ← sort_range fuel tosort pl (pi - 1) cdepth false;
          sort_range fuel tosort (pi + 1) pr cdepth true
        else
          tosort ← sort_range fuel tosort (pi + 1) pr cdepth false;
          sort_range fuel tosort pl (pi - 1) cdepth true
    end
  else Some (insertion_sort tosort pl pr).

End aquicksort.

(** [npy_aquicksort(v, tosort, num, arr)] on [tosort = arange(num)]. *)
Definition npy_aquicksort (v : list Z) : option (list nat) :=
  let num := length v in
  sort_range v num (seq 0 num) 0 (num - 1) (Z.log2 (Z.of_nat num) * 2) true.

End npysort.

(** [np.argsort(keys, kind='quicksort')] on an object column. *)
Definition argsort_quicksort (keys : list Z) : list nat :=
  default [] (npysort.npy_aquicksort keys).

(** * Definitions used in the statements *)

(** The sum over the window that ends at position [i]: the [min (i+1) window]
    values up to and including the one at [i]. *)
Definition window_sum (window : nat) (values : list Z) (i : nat) : Z :=
  Zsum (take (S i `min` window) (drop (S i - S i `min` window) values)).

(** The entry the loop stores for a stock and a date. *)
Definition crossing_of (argsort : list Z → list nat)
    (avg_volumes : gmap (string * string) number)
    (stock_data : list IntradayTick) (stock_name Date : string) : option TimeOfDay :=
  first_exceed (rolling_series argsort stock_data Date)
    (default (Num 0) (avg_volumes !! (stock_name, Date))).

(** The rows of stock [s] in a table of the analysis. *)
Definition series_in (table : list RollingRow) (s : string) : list RollingRow :=
  filter (λ r, t_stock (r_tick r) = s) table.

(** The ticks of stock [s] on the date [Date] at or after the market opens. *)
Definition retained_ticks (self : StockAnalysis) (s Date : string) : list IntradayTick :=
  filter (λ t, t_stock t = s ∧ t_date t = pd_Timestamp Date ∧ market_open ≤ t_time t)
    (intraday_data self).

(** ** Inputs of the examples *)

(** The stock ABC has its only daily row on 19-04-2024 itself, so none before
    that date, and one tick of 50 at the opening of that day. *)
Definition no_history : StockAnalysis :=
  {| daily_data := [mkDaily "ABC" 19832 100];
     intraday_data := [mkTick "ABC" 19832 (mk_time 9 15 0) 50] |}.

(** A daily table with the stock ABC and an intraday table with ticks of the
    stock XYZ only. *)
Definition daily_only_ABC : StockAnalysis :=
  {| daily_data := [mkDaily "ABC" 19831 100];
     intraday_data := [mkTick "XYZ" 19832 (mk_time 9 15 0) 50] |}.

(** 3601 ticks of one stock on 19-04-2024, one per second from 09:15:00: the
    first trades 100, the others trade nothing. *)
Definition ticks_3601 : list IntradayTick :=
  mkTick "ABC" 19832 market_open 100
    :: ((λ t, mkTick "ABC" 19832 t 0) <$> seqZ (market_open + 1) 3600).

(** 18 ticks of one stock, all at 09:15:00, trading 1, 2, ..., 18 in the
    order they arrived. *)
Definition same_second_18 : list IntradayTick :=
  (λ q, mkTick "ABC" 19832 (mk_time 9 15 0) q) <$> seqZ 1 18.

(** One tick before the market opens and one at the opening. *)
Definition with_early_tick : StockAnalysis :=
  {| daily_data := [mkDaily "ABC" 19831 100];
     intraday_data := [mkTick "ABC" 19832 (mk_time 9 0 0) 10;
                       mkTick "ABC" 19832 (mk_time 9 15 0) 50] |}.

(** An intraday table whose only tick is from before the market opens. *)
Definition only_before_open : StockAnalysis :=
  {| daily_data := [mkDaily "ABC" 19831 100];
     intraday_data := [mkTick "ABC" 19832 (mk_time 9 0 0) 50] |}.

(** ABC with a daily row on each of the 32 days before 19-04-2024, of volume
    100, 200, ..., 3200 going back in time, a row on 19-04-2024 itself and a
    row of another stock; 40 ticks of 50 on 19-04-2024, one per second from
    09:15:00. *)
Definition abc_history : StockAnalysis :=
  {| daily_data :=
       mkDaily "ABC" 19832 9999 :: mkDaily "XYZ" 19831 7
         :: reverse ((λ i, mkDaily "ABC" (19832 - i) (100 * i)) <$> seqZ 1 32);
     intraday_data :=
       (λ i, mkTick "ABC" 19832 (market_open + i) 50) <$> seqZ 0 40 |}.


(** Three ticks of one stock on 19-04-2024, not in time order. *)
Definition three_ticks : list IntradayTick :=
  [mkTick "ABC" 19832 (mk_time 9 16 0) 5;
   mkTick "ABC" 19832 (mk_time 9 15 0) 7;
   mkTick "ABC" 19832 (mk_time 9 15 30) 1].

(** * Verification *)

(** ** Lists, sums and positions *)

Lemma Zsum_app l1 l2 : Zsum (l1 ++ l2) = Zsum l1 + Zsum l2.
Proof. unfold Zsum. induction l1 as [|x l1 IH]; simpl; lia. Qed.

Lemma Zsum_Permutation l1 l2 : l1 ≡ₚ l2 → Zsum l1 = Zsum l2.
Proof. unfold Zsum. induction 1; simpl; lia. Qed.

Lemma Zsum_take_S l k x :
  l !! k = Some x → Zsum (take (S k) l) = Zsum (take k l) + x.
Proof.
  intros Hk. rewrite (take_S_r _ _ _ Hk), Zsum_app. unfold Zsum. simpl. lia.
Qed.

(** A window of a column as a difference of two prefix sums. *)
Lemma Zsum_take_drop l k n :
  Zsum (take n (drop k l)) = Zsum (take (k + n) l) - Zsum (take k l).
Proof.
  rewrite <-(take_drop k (take (k + n) l)), Zsum_app.
  rewrite take_take, Nat.min_l by lia.
  rewrite <-take_drop_commute. replace (k + n - k)%nat with n by lia. lia.
Qed.

Lemma mean_Permutation l1 l2 : l1 ≡ₚ l2 → mean l1 = mean l2.
Proof.
  intros Hp. unfold mean.
  destruct l1 as [|x l1], l2 as [|y l2]; try done.
  - by apply Permutation_nil_cons in Hp.
  - symmetry in Hp. by apply Permutation_nil_cons in Hp.
  - by rewrite (Zsum_Permutation _ _ Hp), (Permutation_length Hp).
Qed.

Lemma take_rows_fmap {A B} (f : A → B) idx (rows : list A) :
  f <$> take_rows idx rows = take_rows idx (f <$> rows).
Proof.
  unfold take_rows. induction idx as [|i idx IH]; simpl; [done|].
  rewrite list_lookup_fmap. destruct (rows !! i); simpl; [f_equal|]; apply IH.
Qed.

Lemma take_rows_seq_app {A} (l1 l2 : list A) :
  take_rows (seq (length l1) (length l2)) (l1 ++ l2) = l2.
Proof.
  unfold take_rows. revert l1. induction l2 as [|x l2 IH]; intros l1; simpl; [done|].
  rewrite lookup_app_r, Nat.sub_diag by lia. simpl. f_equal.
  specialize (IH (l1 ++ [x])). rewrite length_app, <-app_assoc in IH. simpl in IH.
  by rewrite Nat.add_1_r in IH.
Qed.

Lemma take_rows_seq {A} (rows : list A) : take_rows (seq 0 (length rows)) rows = rows.
Proof. apply (take_rows_seq_app []). Qed.

Lemma take_rows_Permutation {A} idx (rows : list A) :
  idx ≡ₚ seq 0 (length rows) → take_rows idx rows ≡ₚ rows.
Proof.
  intros Hp. rewrite <-(take_rows_seq rows) at 2. unfold take_rows. by rewrite Hp.
Qed.

(** Two lists with the same rows and the same key column, the keys being
    distinct, are the same list. *)
Lemma Permutation_fmap_NoDup_eq {A B} (f : A → B) (l1 l2 : list A) :
  NoDup (f <$> l1) → f <$> l1 = f <$> l2 → l1 ≡ₚ l2 → l1 = l2.
Proof.
  revert l2. induction l1 as [|x l1 IH]; intros [|y l2] Hnd Heq Hp; try done.
  rewrite !fmap_cons in Heq. injection Heq as Hxy Heq.
  rewrite fmap_cons in Hnd. apply NoDup_cons in Hnd as [Hx Hnd].
  assert (x = y) as ->.
  { assert (x ∈ y :: l2) as Hin by (rewrite <-Hp; left).
    apply elem_of_cons in Hin as [?|Hin]; [done|].
    destruct Hx. rewrite Heq. by apply list_elem_of_fmap_2. }
  f_equal. apply IH; [done..|]. by apply (inj (y ::.)).
Qed.

Lemma unique_elem_of l x : x ∈ unique l ↔ x ∈ l.
Proof.
  induction l as [|y l IH]; simpl; [done|].
  rewrite !elem_of_cons, list_elem_of_filter, IH.
  destruct (decide (x = y)); tauto.
Qed.

Lemma unique_NoDup l : NoDup (unique l).
Proof.
  induction l as [|y l IH]; simpl; [constructor|].
  apply NoDup_cons. split; [|by apply NoDup_filter].
  rewrite list_elem_of_filter. tauto.
Qed.

(** ** [sort_values] under the contract of [argsort] *)

(** Sorted by a key without repetition, a table has one order only. *)
Lemma sorted_NoDup_unique {A} (by_ : A → Z) (l1 l2 : list A) :
  NoDup (by_ <$> l1) → l1 ≡ₚ l2 →
  StronglySorted Z.le (by_ <$> l1) → StronglySorted Z.le (by_ <$> l2) → l1 = l2.
Proof.
  intros Hnd Hp Hs1 Hs2. apply (Permutation_fmap_NoDup_eq by_); [done| |done].
  apply (StronglySorted_unique Z.le); [done..|by rewrite Hp].
Qed.

Section Sorting.

Context (argsort : list Z → list nat) `{!ArgsortSpec argsort}.

Lemma sort_values_Permutation {A} (by_ : A → Z) ascending (df : list A) :
  sort_values argsort by_ ascending df ≡ₚ df.
Proof.
  unfold sort_values. destruct ascending.
  - apply take_rows_Permutation. rewrite <-(length_fmap by_). apply argsort_perm.
  - rewrite reverse_Permutation, take_rows_Permutation; [apply reverse_Permutation|].
    rewrite <-(length_fmap by_). apply argsort_perm.
Qed.

Lemma sort_values_length {A} (by_ : A → Z) ascending (df : list A) :
  length (sort_values argsort by_ ascending df) = length df.
Proof. apply Permutation_length, sort_values_Permutation. Qed.

Lemma sort_values_ascending {A} (by_ : A → Z) (df : list A) :
  StronglySorted Z.le (by_ <$> sort_values argsort by_ true df).
Proof.
  unfold sort_values. rewrite take_rows_fmap.
  apply Sorted_StronglySorted; [apply _|]. apply argsort_sorted.
Qed.

Lemma sort_values_descending {A} (by_ : A → Z) (df : list A) :
  StronglySorted (flip Z.le) (by_ <$> sort_values argsort by_ false df).
Proof.
  unfold sort_values. rewrite fmap_reverse, take_rows_fmap.
  apply Sorted_StronglySorted; [apply _|]. apply Sorted_reverse, argsort_sorted.
Qed.

Local Instance flip_Zle_antisymm : AntiSymm (=) (flip Z.le).
Proof. intros x y. unfold flip. lia. Qed.

(** When the keys are distinct the sorted table does not depend on the order
    of the rows it is given. *)
Lemma sort_values_unique {A} (by_ : A → Z) ascending (df1 df2 : list A) :
  NoDup (by_ <$> df1) → df1 ≡ₚ df2 →
  sort_values argsort by_ ascending df1 = sort_values argsort by_ ascending df2.
Proof.
  intros Hnd Hp.
  assert (sort_values argsort by_ ascending df1 ≡ₚ sort_values argsort by_ ascending df2)
    as Hps by (by rewrite !sort_values_Permutation).
  apply (Permutation_fmap_NoDup_eq by_); [| |done].
  - by rewrite sort_values_Permutation.
  - destruct ascending.
    + apply (StronglySorted_unique Z.le); [apply sort_values_ascending..|by rewrite Hps].
    + apply (StronglySorted_unique (flip Z.le));
        [apply sort_values_descending..|by rewrite Hps].
Qed.

(** A table already in ascending order of distinct keys is left as it is. *)
Lemma sort_values_sorted_id {A} (by_ : A → Z) (df : list A) :
  StronglySorted Z.le (by_ <$> df) → NoDup (by_ <$> df) →
  sort_values argsort by_ true df = df.
Proof.
  intros Hs Hnd. apply (sorted_NoDup_unique by_); [|apply sort_values_Permutation| |done].
  - by rewrite sort_values_Permutation.
  - apply sort_values_ascending.
Qed.

End Sorting.

(** ** A sort that meets the contract *)

Lemma take_rows_paired (keys : list Z) (m : list (Z * nat)) :
  Forall (λ p, keys !! p.2 = Some p.1) m → take_rows (m.*2) keys = m.*1.
Proof.
  unfold take_rows. induction 1 as [|[k i] m Hk _ IH]; csimpl; [done|].
  simpl in Hk. rewrite Hk. simpl. by rewrite IH.
Qed.

Global Instance argsort_merge_spec : ArgsortSpec argsort_merge.
Proof.
  split; intros keys; unfold argsort_merge.
  - rewrite merge_sort_Permutation, snd_zip; [done|]. by rewrite length_seq.
  - rewrite take_rows_paired.
    + apply (Sorted_fmap _ key_le); [done|]. apply Sorted_merge_sort.
      intros [a i] [b j]. unfold key_le. simpl. lia.
    + rewrite merge_sort_Permutation. apply Forall_forall. intros [k i] Hin.
      apply elem_of_lookup_zip_with_1 in Hin as (n & x & y & Heq & Hx & Hy).
      injection Heq as -> ->. apply lookup_seq in Hy as [-> _]. done.
Qed.

(** ** The 30-day average *)




(** The scenario of the design notes: the 30 volumes 100, ..., 3000 of the 30
    days before 19-04-2024 average to 1550 (the older rows, the row of the
    day and the other stock are left out), and ticks of 50 a second from
    09:15:00 first exceed it at the 32nd tick, at 09:15:31. *)
Example end_to_end_scenario :
  calculate_30_day_avg argsort_merge abc_history "ABC" (pd_Timestamp "19-04-2024")
    = Num (Qc_of_Z 1550)
  ∧ ∃ avg_volumes a,
      (run_analysis argsort_merge abc_history).1 = Some (avg_volumes, a)
      ∧ crossing_results a !! ("ABC", "19-04-2024") = Some (Some (mk_time 9 15 31))
      ∧ crossing_results a !! ("ABC", "22-04-2024") = Some None.
Proof.
  split.
  - vm_compute. f_equal. by apply Qc_is_canon.
  - eexists _, _. split; [reflexivity|]. by vm_compute.
Qed.

(** ** The rolling sum *)

Lemma window_sum_prefix window values i :
  window_sum window values i
  = Zsum (take (S i) values) - Zsum (take (S i - window) values).
Proof.
  unfold window_sum. rewrite Zsum_take_drop. do 3 f_equal; lia.
Qed.

(** The running sum of pandas holds, at every position, the sum over the
    window ending there. *)
Lemma roll_sum_from_spec window values rest i :
  drop i values = rest →
  roll_sum_from window values i
    (Zsum (take i values) - Zsum (take (i - window) values)) rest
  = window_sum window values <$> seq i (length rest).
Proof.
  revert i. induction rest as [|x rest IH]; intros i Hd; simpl; [done|].
  assert (values !! i = Some x) as Hi.
  { rewrite <-(Nat.add_0_r i), <-lookup_drop, Hd. done. }
  assert (drop (S i) values = rest) as Hd'.
  { rewrite (drop_S _ _ _ Hi) in Hd. by injection Hd. }
  assert (Zsum (take i values) - Zsum (take (i - window) values)
          - (if decide (window ≤ i)%nat
             then default 0 (values !! (i - window)%nat) else 0) + x
          = Zsum (take (S i) values) - Zsum (take (S i - window) values)) as ->.
  { rewrite (Zsum_take_S _ _ _ Hi). case_decide as Hw.
    - destruct (lookup_lt_is_Some_2 values (i - window)%nat) as [y Hy].
      { apply lookup_lt_Some in Hi. lia. }
      replace (S i - window)%nat with (S (i - window)) by lia.
      rewrite (Zsum_take_S _ _ _ Hy), Hy. simpl. lia.
    - replace (S i - window)%nat with 0%nat by lia.
      replace (i - window)%nat with 0%nat by lia. lia. }
  f_equal; [by rewrite window_sum_prefix|]. by apply IH.
Qed.

Lemma rolling_sum_spec window values :
  rolling_sum window values = window_sum window values <$> seq 0 (length values).
Proof. by apply (roll_sum_from_spec window values values 0). Qed.

Lemma rolling_sum_length window values :
  length (rolling_sum window values) = length values.
Proof. by rewrite rolling_sum_spec, length_fmap, length_seq. Qed.

Lemma rolling_sum_lookup window values i :
  (i < length values)%nat →
  rolling_sum window values !! i = Some (window_sum window values i).
Proof.
  intros Hi. rewrite rolling_sum_spec, list_lookup_fmap.
  by rewrite (lookup_seq_lt 0 _ i Hi).
Qed.

(** ** The rolling series *)

Lemma rolling_series_ticks argsort stock_data Date :
  r_tick <$> rolling_series argsort stock_data Date
  = sort_values argsort t_time true
      (filter (λ t, t_date t = pd_Timestamp Date) stock_data).
Proof.
  unfold rolling_series.
  generalize (sort_values argsort t_time true
                (filter (λ t, t_date t = pd_Timestamp Date) stock_data)).
  intros ticks.
  pose proof (rolling_sum_length 3600 (t_qty <$> ticks)) as Hlen.
  rewrite length_fmap in Hlen. revert Hlen.
  generalize (rolling_sum 3600 (t_qty <$> ticks)). clear.
  induction ticks as [|t ticks IH]; intros [|c cs] Hlen; simplify_eq/=; [done|].
  f_equal. by apply IH.
Qed.

(** C3.  Every row of the rolling series stands for one tick of the sorted
    table, at the same position, and its cumulative volume is the sum of the
    quantities of the [min (i+1) 3600] ticks of the sorted table that end at
    its position [i]: a window counted in ticks. *)
Theorem rolling_series_positional_window argsort
    (stock_data : list IntradayTick) (Date : string) (i : nat) (row : RollingRow) :
  let series := rolling_series argsort stock_data Date in
  let ticks :=
    sort_values argsort t_time true
      (filter (λ t, t_date t = pd_Timestamp Date) stock_data) in
  series !! i = Some row →
  r_tick <$> series = ticks
  ∧ length series = length ticks
  ∧ ticks !! i = Some (r_tick row)
  ∧ cumulative_volume row
    = Zsum (t_qty <$> take (S i `min` 3600) (drop (S i - S i `min` 3600) ticks)).
Proof.
  intros series ticks Hrow.
  assert (r_tick <$> series = ticks) as Hticks by apply rolling_series_ticks.
  split_and!; [done|by rewrite <-Hticks, length_fmap|by rewrite <-Hticks, list_lookup_fmap, Hrow|].
  unfold series, rolling_series in Hrow. fold ticks in Hrow.
  apply lookup_zip_with_Some in Hrow as (t & c & -> & Ht & Hc).
  rewrite rolling_sum_lookup in Hc
    by (rewrite length_fmap; by apply lookup_lt_Some in Ht).
  injection Hc as <-. simpl. unfold window_sum. by rewrite fmap_take, fmap_drop.
Qed.

(** On [three_ticks] the last row, at position 2, carries the sum of all
    three quantities. *)
Lemma rolling_series_positional_window_witness :
  rolling_series argsort_merge three_ticks "19-04-2024" !! 2%nat
    = Some (mkRow (mkTick "ABC" 19832 (mk_time 9 16 0) 5) 13)
  ∧ cumulative_volume (mkRow (mkTick "ABC" 19832 (mk_time 9 16 0) 5) 13)
    = Zsum (t_qty <$>
              take (3 `min` 3600) (drop (3 - 3 `min` 3600)
                (sort_values argsort_merge t_time true
                   (filter (λ t, t_date t = pd_Timestamp "19-04-2024") three_ticks)))).
Proof.
  assert (rolling_series argsort_merge three_ticks "19-04-2024" !! 2%nat
          = Some (mkRow (mkTick "ABC" 19832 (mk_time 9 16 0) 5) 13)) as Hrow
    by reflexivity.
  split; [exact Hrow|].
  exact (proj2 (proj2 (proj2
    (rolling_series_positional_window argsort_merge three_ticks "19-04-2024" 2 _ Hrow)))).
Defined.

Lemma take_rows_elem_of {A} idx (rows : list A) x :
  x ∈ take_rows idx rows → x ∈ rows.
Proof.
  unfold take_rows. rewrite list_elem_of_omap. intros (i & _ & Hi).
  by apply list_elem_of_lookup_2 in Hi.
Qed.

Lemma sort_values_elem_of argsort {A} (by_ : A → Z) ascending (df : list A) x :
  x ∈ sort_values argsort by_ ascending df → x ∈ df.
Proof.
  unfold sort_values. destruct ascending.
  - apply take_rows_elem_of.
  - rewrite elem_of_reverse. intros Hx%take_rows_elem_of. by apply elem_of_reverse.
Qed.

(** A row of the series: its tick is the one at its position in the sorted
    table and its cumulative volume is the window sum at that position. *)
Lemma rolling_series_lookup argsort stock_data Date i row :
  let ticks :=
    sort_values argsort t_time true
      (filter (λ t, t_date t = pd_Timestamp Date) stock_data) in
  rolling_series argsort stock_data Date !! i = Some row →
  ticks !! i = Some (r_tick row)
  ∧ cumulative_volume row = window_sum 3600 (t_qty <$> ticks) i.
Proof.
  intros ticks Hrow. unfold rolling_series in Hrow. fold ticks in Hrow.
  apply lookup_zip_with_Some in Hrow as (t & c & -> & Ht & Hc).
  rewrite rolling_sum_lookup in Hc
    by (rewrite length_fmap; by apply lookup_lt_Some in Ht).
  by injection Hc as <-.
Qed.

Lemma rolling_series_elem_of argsort stock_data Date row :
  row ∈ rolling_series argsort stock_data Date →
  r_tick row ∈ stock_data ∧ t_date (r_tick row) = pd_Timestamp Date.
Proof.
  intros [i Hi]%list_elem_of_lookup.
  apply rolling_series_lookup in Hi as [Ht _].
  apply list_elem_of_lookup_2, sort_values_elem_of, list_elem_of_filter in Ht.
  tauto.
Qed.

(** C6 (amended).  With non-negative quantities the cumulative volume does not
    decrease from a point to the next as long as the next point is among the
    first 3600 of the series: so a series of at most 3600 points is
    non-decreasing.  From any point to the next the cumulative volume grows by
    the quantity of the tick that enters the window and, once 3600 ticks have
    gone by, shrinks by the quantity of the tick that leaves it. *)
Theorem rolling_series_nondecreasing_in_window argsort
    (stock_data : list IntradayTick) (Date : string) (i : nat) (r1 r2 : RollingRow) :
  let series := rolling_series argsort stock_data Date in
  Forall (λ t, 0 ≤ t_qty t) stock_data →
  series !! i = Some r1 →
  series !! S i = Some r2 →
  cumulative_volume r2
  = cumulative_volume r1 + t_qty (r_tick r2)
    - (if decide (3600 ≤ S i)%nat
       then default 0 ((t_qty ∘ r_tick <$> series) !! (S i - 3600)%nat) else 0)
  ∧ ((S i < 3600)%nat → cumulative_volume r1 ≤ cumulative_volume r2).
Proof.
  intros series Hnn H1 H2.
  assert (0 ≤ t_qty (r_tick r2)) as Hq2.
  { apply list_elem_of_lookup_2, rolling_series_elem_of in H2 as [Hin _].
    by apply (proj1 (Forall_forall _ _) Hnn). }
  pose proof (rolling_series_ticks argsort stock_data Date) as Hticks.
  fold series in Hticks.
  apply rolling_series_lookup in H1 as [Ht1 Hc1], H2 as [Ht2 Hc2].
  rewrite <-Hticks in Ht1, Ht2, Hc1, Hc2. rewrite <-list_fmap_compose in Hc1, Hc2.
  set (qs := (t_qty ∘ r_tick) <$> series) in *.
  assert (qs !! S i = Some (t_qty (r_tick r2))) as Hq.
  { unfold qs. rewrite list_fmap_compose, list_lookup_fmap, Ht2. done. }
  rewrite Hc1, Hc2, !window_sum_prefix, (Zsum_take_S _ _ _ Hq).
  assert (Zsum (take (S (S i) - 3600) qs)
          = Zsum (take (S i - 3600) qs)
            + (if decide (3600 ≤ S i)%nat
               then default 0 (qs !! (S i - 3600)%nat) else 0)) as ->.
  { case_decide as Hw.
    - destruct (lookup_lt_is_Some_2 qs (S i - 3600)%nat) as [y Hy].
      { apply lookup_lt_Some in Hq. lia. }
      replace (S (S i) - 3600)%nat with (S (S i - 3600)) by lia.
      rewrite (Zsum_take_S _ _ _ Hy), Hy. done.
    - replace (S (S i) - 3600)%nat with 0%nat by lia.
      replace (S i - 3600)%nat with 0%nat by lia. simpl. lia. }
  split; [lia|]. intros Hlt. rewrite decide_False by lia. lia.
Qed.

(** On [three_ticks] the cumulative volume goes from 7 to 8 between the first
    two rows. *)
Lemma rolling_series_nondecreasing_in_window_witness :
  Forall (λ t, 0 ≤ t_qty t) three_ticks
  ∧ rolling_series argsort_merge three_ticks "19-04-2024" !! 0%nat
    = Some (mkRow (mkTick "ABC" 19832 (mk_time 9 15 0) 7) 7)
  ∧ rolling_series argsort_merge three_ticks "19-04-2024" !! 1%nat
    = Some (mkRow (mkTick "ABC" 19832 (mk_time 9 15 30) 1) 8)
  ∧ (1 < 3600)%nat
  ∧ cumulative_volume (mkRow (mkTick "ABC" 19832 (mk_time 9 15 0) 7) 7)
    ≤ cumulative_volume (mkRow (mkTick "ABC" 19832 (mk_time 9 15 30) 1) 8).
Proof.
  assert (Forall (λ t, 0 ≤ t_qty t) three_ticks) as Hnn
    by (repeat constructor; simpl; lia).
  assert (rolling_series argsort_merge three_ticks "19-04-2024" !! 0%nat
          = Some (mkRow (mkTick "ABC" 19832 (mk_time 9 15 0) 7) 7)) as H0
    by reflexivity.
  assert (rolling_series argsort_merge three_ticks "19-04-2024" !! 1%nat
          = Some (mkRow (mkTick "ABC" 19832 (mk_time 9 15 30) 1) 8)) as H1
    by reflexivity.
  assert (1 < 3600)%nat as Hlt by lia.
  split_and!; [exact Hnn|exact H0|exact H1|exact Hlt|].
  exact (proj2 (rolling_series_nondecreasing_in_window argsort_merge three_ticks
                  "19-04-2024" 0 _ _ Hnn H0 H1) Hlt).
Defined.

(** ** The first crossing *)

Lemma first_exceed_cons row series baseline :
  first_exceed (row :: series) baseline
  = if decide (exceeds (cumulative_volume row) baseline)
    then Some (t_time (r_tick row))
    else first_exceed series baseline.
Proof.
  unfold first_exceed, exceed_timestamp. rewrite filter_cons.
  by case_decide.
Qed.

Lemma first_exceed_NaN series : first_exceed series NaN = None.
Proof.
  induction series as [|row series IH]; [done|].
  rewrite first_exceed_cons. by rewrite decide_False by (simpl; tauto).
Qed.

(** C4.  For every series and baseline: the detection returns a time exactly
    when some point exceeds the baseline, and then it is the time of the
    first such point of the series (no point before it exceeds the baseline);
    it returns [None] exactly when no point exceeds the baseline.  On a series
    in ascending time order the time returned is the earliest time of a
    point above the baseline. *)
Theorem first_exceed_earliest (series : list RollingRow) (baseline : number) :
  (∀ t, first_exceed series baseline = Some t ↔
     ∃ i row, series !! i = Some row
       ∧ t_time (r_tick row) = t
       ∧ exceeds (cumulative_volume row) baseline
       ∧ ∀ j row', (j < i)%nat → series !! j = Some row' →
           ¬ exceeds (cumulative_volume row') baseline)
  ∧ (first_exceed series baseline = None ↔
       ∀ row, row ∈ series → ¬ exceeds (cumulative_volume row) baseline)
  ∧ (StronglySorted Z.le (t_time ∘ r_tick <$> series) →
       ∀ t row, first_exceed series baseline = Some t →
         row ∈ series → exceeds (cumulative_volume row) baseline →
         t ≤ t_time (r_tick row)).
Proof.
  induction series as [|r series (IHsome & IHnone & IHsorted)].
  { split_and!.
    - intros t. split; [done|]. by intros (i & row & Hi & _).
    - split; [|done]. intros _ row Hin. by apply elem_of_nil in Hin.
    - done. }
  split_and!.
  - intros t. rewrite first_exceed_cons. case_decide as Hr.
    + split.
      * intros [= <-]. exists 0%nat, r. split_and!; [done..|]. intros j ??. lia.
      * intros (i & row & Hi & <- & Hex & Hbefore). destruct i as [|i].
        { by injection Hi as ->. }
        destruct (Hbefore 0%nat r); [lia|done..].
    + rewrite IHsome. split.
      * intros (i & row & Hi & Ht & Hex & Hbefore).
        exists (S i), row. split_and!; [done..|].
        intros [|j] row' Hj Hrow'; [by injection Hrow' as <-|].
        apply (Hbefore j); [lia|done].
      * intros (i & row & Hi & Ht & Hex & Hbefore). destruct i as [|i].
        { by injection Hi as ->. }
        exists i, row. split_and!; [done..|].
        intros j row' Hj Hrow'. apply (Hbefore (S j)); [lia|done].
  - rewrite first_exceed_cons. case_decide as Hr.
    + split; [done|]. intros Hall. destruct (Hall r); [left|done].
    + rewrite IHnone. split.
      * intros Hall row [->|Hin]%elem_of_cons; [done|by apply Hall].
      * intros Hall row Hin. apply Hall. by right.
  - intros Hsorted t row. rewrite first_exceed_cons.
    rewrite fmap_cons in Hsorted. apply StronglySorted_inv in Hsorted as [Hs Hhd].
    case_decide as Hr.
    + intros [= <-] [->|Hin]%elem_of_cons _; [done|].
      apply (proj1 (Forall_forall _ _) Hhd). by apply (list_elem_of_fmap_2 (t_time ∘ r_tick)).
    + intros Ht [->|Hin]%elem_of_cons Hex; [done|]. by apply (IHsorted Hs t row).
Qed.

(** On the series of [three_ticks] and the baseline 7 the crossing is at
    09:15:30, and no row above the baseline is earlier. *)
Lemma first_exceed_earliest_witness :
  StronglySorted Z.le
    (t_time ∘ r_tick <$> rolling_series argsort_merge three_ticks "19-04-2024")
  ∧ first_exceed (rolling_series argsort_merge three_ticks "19-04-2024")
      (Num (Qc_of_Z 7)) = Some (mk_time 9 15 30)
  ∧ ∀ row, row ∈ rolling_series argsort_merge three_ticks "19-04-2024" →
      exceeds (cumulative_volume row) (Num (Qc_of_Z 7)) →
      mk_time 9 15 30 ≤ t_time (r_tick row).
Proof.
  assert (StronglySorted Z.le
            (t_time ∘ r_tick <$> rolling_series argsort_merge three_ticks "19-04-2024"))
    as Hs by (vm_compute; repeat constructor; discriminate).
  assert (first_exceed (rolling_series argsort_merge three_ticks "19-04-2024")
            (Num (Qc_of_Z 7)) = Some (mk_time 9 15 30)) as Hf by reflexivity.
  split_and!; [exact Hs|exact Hf|].
  intros row.
  exact (proj2 (proj2 (first_exceed_earliest
                         (rolling_series argsort_merge three_ticks "19-04-2024")
                         (Num (Qc_of_Z 7)))) Hs _ row Hf).
Defined.

(** ** The groups and the loops of [analyze_intraday_data] *)

Lemma groupby_keys df : (groupby df).*1 = merge_sort string_le (unique (t_stock <$> df)).
Proof.
  unfold groupby. rewrite <-list_fmap_compose. apply list_fmap_id.
Qed.

Lemma groupby_NoDup df : NoDup (groupby df).*1.
Proof. rewrite groupby_keys, merge_sort_Permutation. apply unique_NoDup. Qed.

Lemma elem_of_groupby df s stock_data :
  (s, stock_data) ∈ groupby df ↔
  s ∈ t_stock <$> df ∧ stock_data = filter (λ t, t_stock t = s) df.
Proof.
  unfold groupby. rewrite list_elem_of_fmap. split.
  - intros (s' & [= -> ->] & Hin).
    by rewrite merge_sort_Permutation, unique_elem_of in Hin.
  - intros [Hin ->]. exists s. split; [done|].
    by rewrite merge_sort_Permutation, unique_elem_of.
Qed.

Lemma elem_of_groupby_keys df s : s ∈ (groupby df).*1 ↔ s ∈ t_stock <$> df.
Proof. by rewrite groupby_keys, merge_sort_Permutation, unique_elem_of. Qed.

Lemma groupby_nil df : groupby df = [] ↔ df = [].
Proof.
  split; [|by intros ->].
  destruct df as [|t df]; [done|]. intros Hg.
  assert (t_stock t ∈ (groupby (t :: df)).*1) as Hin
    by (apply elem_of_groupby_keys; left).
  rewrite Hg in Hin. by apply elem_of_nil in Hin.
Qed.

Section Loops.

Context (argsort : list Z → list nat) (avg_volumes : gmap (string * string) number).

Lemma process_stock_unfold acc group :
  process_stock argsort avg_volumes acc group
  = {| all_rolling_data_19 :=
         all_rolling_data_19 acc ++ [rolling_series argsort group.2 "19-04-2024"];
       all_rolling_data_22 :=
         all_rolling_data_22 acc ++ [rolling_series argsort group.2 "22-04-2024"];
       results :=
         <[(group.1, "22-04-2024") := crossing_of argsort avg_volumes group.2 group.1 "22-04-2024"]>
           (<[(group.1, "19-04-2024") := crossing_of argsort avg_volumes group.2 group.1 "19-04-2024"]>
              (results acc)) |}.
Proof. done. Qed.

Lemma foldl_process_stock_19 groups acc :
  all_rolling_data_19 (foldl (process_stock argsort avg_volumes) acc groups)
  = all_rolling_data_19 acc
    ++ ((λ g, rolling_series argsort g.2 "19-04-2024") <$> groups).
Proof.
  revert acc. induction groups as [|g groups IH]; intros acc; simpl.
  - by rewrite app_nil_r.
  - rewrite IH, process_stock_unfold. simpl. by rewrite <-app_assoc.
Qed.

Lemma foldl_process_stock_22 groups acc :
  all_rolling_data_22 (foldl (process_stock argsort avg_volumes) acc groups)
  = all_rolling_data_22 acc
    ++ ((λ g, rolling_series argsort g.2 "22-04-2024") <$> groups).
Proof.
  revert acc. induction groups as [|g groups IH]; intros acc; simpl.
  - by rewrite app_nil_r.
  - rewrite IH, process_stock_unfold. simpl. by rewrite <-app_assoc.
Qed.

(** Keys the loops do not write keep their entry. *)
Lemma foldl_process_stock_results_other groups acc s Date :
  s ∉ groups.*1 ∨ Date ∉ reference_dates →
  results (foldl (process_stock argsort avg_volumes) acc groups) !! (s, Date)
  = results acc !! (s, Date).
Proof.
  revert acc. induction groups as [|g groups IH]; intros acc Hout; simpl; [done|].
  rewrite IH, process_stock_unfold; simpl.
  - rewrite !lookup_insert_ne; [done|..]; intros [= <- <-]; destruct Hout as [Hs|HD].
    + apply Hs. left.
    + apply HD. unfold reference_dates. set_solver.
    + apply Hs. left.
    + apply HD. unfold reference_dates. set_solver.
  - destruct Hout as [Hs|HD]; [left|by right]. intros Hin. apply Hs. by right.
Qed.

(** A group writes its two entries, and no later group overwrites them. *)
Lemma foldl_process_stock_results groups acc s stock_data Date :
  NoDup groups.*1 → (s, stock_data) ∈ groups → Date ∈ reference_dates →
  results (foldl (process_stock argsort avg_volumes) acc groups) !! (s, Date)
  = Some (crossing_of argsort avg_volumes stock_data s Date).
Proof.
  revert acc. induction groups as [|g groups IH]; intros acc Hnd Hin HD; simpl.
  { by apply elem_of_nil in Hin. }
  rewrite fmap_cons in Hnd. apply NoDup_cons in Hnd as [Hg Hnd].
  apply elem_of_cons in Hin as [<-|Hin]; [|by apply IH].
  rewrite foldl_process_stock_results_other by (by left).
  rewrite process_stock_unfold; simpl.
  unfold reference_dates in HD.
  apply elem_of_cons in HD as [->|HD].
  - rewrite lookup_insert_ne by done. by rewrite lookup_insert_eq.
  - apply list_elem_of_singleton in HD as ->. by rewrite lookup_insert_eq.
Qed.

End Loops.

Lemma filter_all {A} (P : A → Prop) `{!∀ x, Decision (P x)} (l : list A) :
  (∀ x, x ∈ l → P x) → filter P l = l.
Proof.
  induction l as [|x l IH]; intros HP; [done|].
  rewrite filter_cons_True by (apply HP; left). f_equal. apply IH.
  intros y Hy. apply HP. by right.
Qed.

Lemma filter_none {A} (P : A → Prop) `{!∀ x, Decision (P x)} (l : list A) :
  (∀ x, x ∈ l → ¬ P x) → filter P l = [].
Proof.
  induction l as [|x l IH]; intros HP; [done|].
  rewrite filter_cons_False by (apply HP; left). apply IH.
  intros y Hy. apply HP. by right.
Qed.

Lemma take_rows_nil {A} idx : take_rows idx (@nil A) = [].
Proof. unfold take_rows. by induction idx. Qed.

Lemma rolling_series_nil argsort Date : rolling_series argsort [] Date = [].
Proof.
  unfold rolling_series, sort_values. rewrite filter_nil. by rewrite take_rows_nil.
Qed.

Lemma filter_stock_rolling_series argsort Date s k df :
  filter (λ r, t_stock (r_tick r) = s)
    (rolling_series argsort (filter (λ t, t_stock t = k) df) Date)
  = if decide (k = s)
    then rolling_series argsort (filter (λ t, t_stock t = k) df) Date else [].
Proof.
  case_decide as Hk.
  - apply filter_all. intros r [Hr _]%rolling_series_elem_of.
    apply list_elem_of_filter in Hr as [Hr _]. congruence.
  - apply filter_none. intros r [Hr _]%rolling_series_elem_of.
    apply list_elem_of_filter in Hr as [Hr _]. congruence.
Qed.

Lemma filter_stock_series_keys argsort Date s df keys :
  NoDup keys →
  filter (λ r, t_stock (r_tick r) = s)
    (concat ((λ k, rolling_series argsort (filter (λ t, t_stock t = k) df) Date)
               <$> keys))
  = if decide (s ∈ keys)
    then rolling_series argsort (filter (λ t, t_stock t = s) df) Date else [].
Proof.
  induction keys as [|k keys IH]; intros Hnd.
  { by rewrite decide_False by apply not_elem_of_nil. }
  apply NoDup_cons in Hnd as [Hk Hnd]. rewrite fmap_cons. simpl.
  rewrite filter_app, filter_stock_rolling_series, (IH Hnd).
  destruct (decide (k = s)) as [->|Hne].
  - rewrite (decide_False (P := s ∈ keys)) by done.
    rewrite decide_True by left. by rewrite app_nil_r.
  - simpl. apply decide_ext. rewrite elem_of_cons. intuition congruence.
Qed.

(** The rows of one stock in the table of a date are the series of that
    stock's group. *)
Lemma filter_stock_series argsort Date s df :
  filter (λ r, t_stock (r_tick r) = s)
    (concat ((λ g, rolling_series argsort g.2 Date) <$> groupby df))
  = rolling_series argsort (filter (λ t, t_stock t = s) df) Date.
Proof.
  unfold groupby. rewrite <-list_fmap_compose.
  rewrite (filter_stock_series_keys argsort Date s df).
  - case_decide as Hs; [done|].
    rewrite merge_sort_Permutation, unique_elem_of in Hs.
    rewrite (filter_none _ df); [by rewrite rolling_series_nil|].
    intros t Ht <-. apply Hs. by apply list_elem_of_fmap_2.
  - rewrite merge_sort_Permutation. apply unique_NoDup.
Qed.

(** ** [analyze_intraday_data] as a whole *)

Section Analysis.

Context (argsort : list Z → list nat) (avg_volumes : gmap (string * string) number).

(** What [analyze_intraday_data] returns and leaves behind, the loops solved:
    with [retained] the ticks at or after the market opens, [pd.concat]
    raises exactly when [retained] is empty. *)
Lemma analyze_intraday_data_unfold (self : StockAnalysis) :
  let retained := filter (λ t, market_open ≤ t_time t) (intraday_data self) in
  analyze_intraday_data argsort avg_volumes self
  = (if decide (retained = []) then None
     else Some
       {| all_rolling_data_19_df :=
            concat ((λ g, rolling_series argsort g.2 "19-04-2024") <$> groupby retained);
          all_rolling_data_22_df :=
            concat ((λ g, rolling_series argsort g.2 "22-04-2024") <$> groupby retained);
          crossing_results :=
            results (foldl (process_stock argsort avg_volumes) (mkAcc [] [] ∅)
                       (groupby retained)) |},
     mkSelf (daily_data self) retained).
Proof.
  intros retained. unfold analyze_intraday_data. fold retained. f_equal.
  rewrite foldl_process_stock_19, foldl_process_stock_22. simpl.
  case_decide as Hr.
  - rewrite Hr. done.
  - destruct (groupby retained) as [|g groups] eqn:Hg; [by apply groupby_nil in Hg|].
    done.
Qed.

Lemma analyze_intraday_data_results (self : StockAnalysis) (a : Analysis) s Date :
  let retained := filter (λ t, market_open ≤ t_time t) (intraday_data self) in
  (analyze_intraday_data argsort avg_volumes self).1 = Some a →
  crossing_results a !! (s, Date)
  = if decide (s ∈ t_stock <$> retained ∧ Date ∈ reference_dates)
    then Some (crossing_of argsort avg_volumes
                 (filter (λ t, t_stock t = s) retained) s Date)
    else None.
Proof.
  intros retained. rewrite analyze_intraday_data_unfold. fold retained. simpl.
  case_decide as Hr; [done|]. intros [= <-]. simpl.
  case_decide as Hk.
  - destruct Hk as [Hs HD].
    apply foldl_process_stock_results; [apply groupby_NoDup| |done].
    by apply elem_of_groupby.
  - rewrite foldl_process_stock_results_other; [done|].
    rewrite elem_of_groupby_keys.
    destruct (decide (s ∈ t_stock <$> retained)); [right|left]; tauto.
Qed.

End Analysis.

(** The ticks of a series are those of the date, each once, in ascending
    time order. *)
Lemma rolling_series_sorted_perm argsort `{!ArgsortSpec argsort} stock_data Date :
  r_tick <$> rolling_series argsort stock_data Date
    ≡ₚ filter (λ t, t_date t = pd_Timestamp Date) stock_data
  ∧ StronglySorted Z.le (t_time ∘ r_tick <$> rolling_series argsort stock_data Date).
Proof.
  rewrite list_fmap_compose, rolling_series_ticks. split.
  - apply (sort_values_Permutation argsort).
  - apply (sort_values_ascending argsort).
Qed.

Lemma stock_date_filter (self : StockAnalysis) s Date :
  filter (λ t, t_date t = pd_Timestamp Date)
    (filter (λ t, t_stock t = s)
       (filter (λ t, market_open ≤ t_time t) (intraday_data self)))
  = retained_ticks self s Date.
Proof.
  unfold retained_ticks. rewrite !list_filter_filter. apply list_filter_iff. tauto.
Qed.

Lemma analysis_tables argsort avg_volumes self a s :
  (analyze_intraday_data argsort avg_volumes self).1 = Some a →
  let retained := filter (λ t, market_open ≤ t_time t) (intraday_data self) in
  series_in (all_rolling_data_19_df a) s
    = rolling_series argsort (filter (λ t, t_stock t = s) retained) "19-04-2024"
  ∧ series_in (all_rolling_data_22_df a) s
    = rolling_series argsort (filter (λ t, t_stock t = s) retained) "22-04-2024".
Proof.
  rewrite analyze_intraday_data_unfold. simpl. case_decide; [done|].
  intros [= <-]. simpl. unfold series_in. by rewrite !filter_stock_series.
Qed.

(** C7.  Under the contract of the sort, [analyze_intraday_data] ends in one
    of two ways.  Either no tick of the table is at or after 09:15:00, and it
    raises (no stock has a tick to show).  Or it returns, and for every stock
    the rows of the stock in the table of each reference date are the series
    the loop built from the group of the stock, which holds, tick for tick,
    the ticks of the stock on that date at or after 09:15:00 (each once and
    no others: none from before 09:15:00, none from another date or stock), in
    ascending time order. *)
Theorem rolling_series_one_point_per_tick argsort `{!ArgsortSpec argsort}
    (avg_volumes : gmap (string * string) number) (self : StockAnalysis) :
  let retained := filter (λ t, market_open ≤ t_time t) (intraday_data self) in
  ((analyze_intraday_data argsort avg_volumes self).1 = None ∧ retained = [])
  ∨ ∃ a, (analyze_intraday_data argsort avg_volumes self).1 = Some a
      ∧ ∀ s,
          let stock_data := filter (λ t, t_stock t = s) retained in
          (series_in (all_rolling_data_19_df a) s
             = rolling_series argsort stock_data "19-04-2024"
           ∧ r_tick <$> series_in (all_rolling_data_19_df a) s
               ≡ₚ retained_ticks self s "19-04-2024"
           ∧ length (series_in (all_rolling_data_19_df a) s)
             = length (retained_ticks self s "19-04-2024")
           ∧ StronglySorted Z.le
               (t_time ∘ r_tick <$> series_in (all_rolling_data_19_df a) s))
          ∧ (series_in (all_rolling_data_22_df a) s
               = rolling_series argsort stock_data "22-04-2024"
             ∧ r_tick <$> series_in (all_rolling_data_22_df a) s
                 ≡ₚ retained_ticks self s "22-04-2024"
             ∧ length (series_in (all_rolling_data_22_df a) s)
               = length (retained_ticks self s "22-04-2024")
             ∧ StronglySorted Z.le
                 (t_time ∘ r_tick <$> series_in (all_rolling_data_22_df a) s)).
Proof.
  intros retained.
  pose proof (analyze_intraday_data_unfold argsort avg_volumes self) as Hu.
  cbv zeta in Hu. fold retained in Hu.
  destruct (decide (retained = [])) as [Hnil|Hne].
  { left. by rewrite Hu. }
  right. eexists. split; [by rewrite Hu|].
  assert (∀ s Date,
            r_tick <$> rolling_series argsort (filter (λ t, t_stock t = s) retained) Date
              ≡ₚ retained_ticks self s Date
            ∧ length (rolling_series argsort (filter (λ t, t_stock t = s) retained) Date)
              = length (retained_ticks self s Date)
            ∧ StronglySorted Z.le
                (t_time ∘ r_tick <$>
                   rolling_series argsort (filter (λ t, t_stock t = s) retained) Date))
    as Hseries.
  { intros s Date.
    destruct (rolling_series_sorted_perm argsort
                (filter (λ t, t_stock t = s) retained) Date) as [Hp Hs].
    unfold retained in Hp at 2. rewrite stock_date_filter in Hp.
    split_and!; [done| |done]. by rewrite <-(Permutation_length Hp), length_fmap. }
  intros s stock_data. simpl. unfold series_in. rewrite !filter_stock_series.
  fold stock_data. split; (split; [done|apply Hseries]).
Qed.

(** On [with_early_tick] the analysis returns, and the rows of ABC in the
    table of 19-04-2024 stand for its one tick from 09:15:00 on. *)
Lemma rolling_series_one_point_per_tick_witness :
  ArgsortSpec argsort_merge
  ∧ ∃ a, (analyze_intraday_data argsort_merge ∅ with_early_tick).1 = Some a
      ∧ r_tick <$> series_in (all_rolling_data_19_df a) "ABC"
          ≡ₚ retained_ticks with_early_tick "ABC" "19-04-2024"
      ∧ length (series_in (all_rolling_data_19_df a) "ABC") = 1%nat.
Proof.
  split; [apply _|].
  destruct (rolling_series_one_point_per_tick argsort_merge ∅ with_early_tick)
    as [[Hnone _]|(a & Ha & Hall)]; [discriminate Hnone|].
  exists a. split; [exact Ha|].
  destruct (Hall "ABC") as [(_ & Hperm & Hlen & _) _].
  split; [exact Hperm|]. rewrite Hlen. reflexivity.
Defined.

(** ** The table of averages *)

Lemma sort_values_nil argsort {A} (by_ : A → Z) ascending :
  sort_values argsort by_ ascending [] = [].
Proof.
  unfold sort_values. destruct ascending; [apply take_rows_nil|].
  rewrite reverse_nil. by rewrite take_rows_nil.
Qed.

Lemma calculate_30_day_avg_no_history argsort (self : StockAnalysis) s target_date :
  filter (λ r, d_stock r = s ∧ d_date r < target_date) (daily_data self) = [] →
  calculate_30_day_avg argsort self s target_date = NaN.
Proof.
  intros Hnone. unfold calculate_30_day_avg, filtered_data.
  by rewrite Hnone, sort_values_nil.
Qed.

Lemma foldl_avg_volumes_lookup (calc : string → Timestamp → number)
    (keys : list string) (acc : gmap (string * string) number) (s Date : string) :
  foldl (λ avg_volumes stock_name,
           <[(stock_name, "22-04-2024") := calc stock_name (pd_Timestamp "22-04-2024")]>
             (<[(stock_name, "19-04-2024") :=
                 calc stock_name (pd_Timestamp "19-04-2024")]> avg_volumes))
        acc keys !! (s, Date)
  = if decide (s ∈ keys ∧ Date ∈ reference_dates)
    then Some (calc s (pd_Timestamp Date))
    else acc !! (s, Date).
Proof.
  revert acc. induction keys as [|k keys IH]; intros acc; cbn [foldl].
  { rewrite decide_False; [done|]. intros [Hs _]. by apply elem_of_nil in Hs. }
  rewrite IH. unfold reference_dates.
  destruct (decide (s ∈ keys ∧ Date ∈ ["19-04-2024"; "22-04-2024"])) as [[Hs HD]|Hn].
  { rewrite decide_True; [done|]. split; [by right|done]. }
  destruct (decide (s = k ∧ Date ∈ ["19-04-2024"; "22-04-2024"])) as [[-> HD]|Hn'].
  - rewrite decide_True by (split; [left|done]).
    apply elem_of_cons in HD as [->|HD].
    + rewrite lookup_insert_ne by done. by rewrite lookup_insert_eq.
    + apply list_elem_of_singleton in HD as ->. by rewrite lookup_insert_eq.
  - rewrite decide_False.
    + rewrite !lookup_insert_ne; [done|..]; intros [= <- <-]; apply Hn'; set_solver.
    + rewrite elem_of_cons. tauto.
Qed.

Lemma get_avg_volumes_lookup argsort (self : StockAnalysis) s Date :
  get_avg_volumes argsort self !! (s, Date)
  = if decide (s ∈ d_stock <$> daily_data self ∧ Date ∈ reference_dates)
    then Some (calculate_30_day_avg argsort self s (pd_Timestamp Date))
    else None.
Proof.
  unfold get_avg_volumes.
  rewrite (foldl_avg_volumes_lookup (calculate_30_day_avg argsort self)), lookup_empty.
  apply decide_ext. by rewrite unique_elem_of.
Qed.

(** X1.  A stock of the daily table with no row before the date has the
    entry NaN: the key is there, so the default of [avg_volumes.get] is not
    used; no cumulative volume exceeds NaN, and the stock is never flagged. *)
Lemma no_history_never_flagged argsort (self : StockAnalysis) (a : Analysis) s Date :
  s ∈ d_stock <$> daily_data self → Date ∈ reference_dates →
  filter (λ r, d_stock r = s ∧ d_date r < pd_Timestamp Date) (daily_data self) = [] →
  (analyze_intraday_data argsort (get_avg_volumes argsort self) self).1 = Some a →
  get_avg_volumes argsort self !! (s, Date) = Some NaN
  ∧ ∀ t, crossing_results a !! (s, Date) ≠ Some (Some t).
Proof.
  intros Hs HD Hnone Ha.
  assert (get_avg_volumes argsort self !! (s, Date) = Some NaN) as Havg.
  { rewrite get_avg_volumes_lookup, decide_True by done. f_equal.
    by apply calculate_30_day_avg_no_history. }
  split; [done|]. intros t.
  rewrite (analyze_intraday_data_results _ _ _ _ _ _ Ha).
  case_decide; [|done]. unfold crossing_of. rewrite Havg. simpl.
  by rewrite first_exceed_NaN.
Qed.

(** On [no_history] ABC is in the daily table with no row before 19-04-2024:
    its entry is NaN and it is not flagged. *)
Lemma no_history_never_flagged_witness :
  ("ABC" ∈ d_stock <$> daily_data no_history)
  ∧ "19-04-2024" ∈ reference_dates
  ∧ ∃ a, (analyze_intraday_data argsort_merge
            (get_avg_volumes argsort_merge no_history) no_history).1 = Some a
      ∧ get_avg_volumes argsort_merge no_history !! ("ABC", "19-04-2024") = Some NaN
      ∧ ∀ t, crossing_results a !! ("ABC", "19-04-2024") ≠ Some (Some t).
Proof.
  assert ("ABC" ∈ d_stock <$> daily_data no_history) as Hs by left.
  assert ("19-04-2024" ∈ reference_dates) as HD by left.
  split; [exact Hs|]. split; [exact HD|]. eexists. split; [reflexivity|].
  exact (no_history_never_flagged argsort_merge no_history _ "ABC" "19-04-2024"
           Hs HD eq_refl eq_refl).
Defined.

(** ** The table of results *)

(** C5 (amended).  When the analysis returns, the results hold an entry for
    a stock and a date exactly when the stock has a tick at or after 09:15:00
    in the intraday table and the date is one of the two reference dates; the
    entry is the first crossing time of the stock's series for the date, or
    [None].  (The daily table plays no part: a stock that is only there has
    no entry.) *)
Theorem crossing_results_entries (argsort : list Z → list nat)
    (avg_volumes : gmap (string * string) number) (self : StockAnalysis)
    (a : Analysis) (s Date : string) :
  (analyze_intraday_data argsort avg_volumes self).1 = Some a →
  let retained := filter (λ t, market_open ≤ t_time t) (intraday_data self) in
  (is_Some (crossing_results a !! (s, Date)) ↔
     s ∈ t_stock <$> retained ∧ Date ∈ reference_dates)
  ∧ (s ∈ t_stock <$> retained → Date ∈ reference_dates →
       crossing_results a !! (s, Date)
       = Some (first_exceed
                 (rolling_series argsort (filter (λ t, t_stock t = s) retained) Date)
                 (default (Num 0) (avg_volumes !! (s, Date))))).
Proof.
  intros Ha retained.
  rewrite (analyze_intraday_data_results _ _ _ _ _ _ Ha). fold retained. split.
  - case_decide as Hk; split; [done|by eauto|by intros []|done].
  - intros Hs HD. by rewrite decide_True.
Qed.

(** On [daily_only_ABC] the analysis returns, and ABC has an entry if and
    only if it has a retained tick. *)
Lemma crossing_results_entries_witness :
  ∃ a, (analyze_intraday_data argsort_merge
          (get_avg_volumes argsort_merge daily_only_ABC) daily_only_ABC).1 = Some a
    ∧ (is_Some (crossing_results a !! ("ABC", "19-04-2024")) ↔
         "ABC" ∈ t_stock <$>
                   filter (λ t, market_open ≤ t_time t) (intraday_data daily_only_ABC)
         ∧ "19-04-2024" ∈ reference_dates).
Proof.
  eexists. split; [reflexivity|].
  exact (proj1 (crossing_results_entries argsort_merge
                  (get_avg_volumes argsort_merge daily_only_ABC) daily_only_ABC _
                  "ABC" "19-04-2024" eq_refl)).
Defined.

(** C5, counterexample.  ABC is a stock of the daily table and the results
    have no entry for it on either date; their entries are those of XYZ. *)
Lemma crossing_results_miss_daily_stock :
  ∃ avg_volumes a,
    (run_analysis argsort_merge daily_only_ABC).1 = Some (avg_volumes, a)
    ∧ "ABC" ∈ d_stock <$> daily_data daily_only_ABC
    ∧ crossing_results a !! ("ABC", "19-04-2024") = None
    ∧ crossing_results a !! ("ABC", "22-04-2024") = None
    ∧ crossing_results a !! ("XYZ", "19-04-2024") = Some (Some (mk_time 9 15 0))
    ∧ crossing_results a !! ("XYZ", "22-04-2024") = Some None.
Proof.
  eexists _, _. split; [reflexivity|].
  split; [left|]. by vm_compute.
Qed.

(** ** A stock without ticks on a date *)

(** X2.  When the analysis returns, a stock without retained ticks on a date
    has no row in the table of that date, and no crossing time is recorded
    for it: its result for a reference date is [None] if the stock has a
    retained tick at all (of whatever date), and it has no entry otherwise. *)
Lemma no_ticks_on_date (argsort : list Z → list nat)
    (avg_volumes : gmap (string * string) number)
    (self : StockAnalysis) (a : Analysis) (s Date : string) :
  (analyze_intraday_data argsort avg_volumes self).1 = Some a →
  retained_ticks self s Date = [] →
  (Date = "19-04-2024" → series_in (all_rolling_data_19_df a) s = [])
  ∧ (Date = "22-04-2024" → series_in (all_rolling_data_22_df a) s = [])
  ∧ crossing_results a !! (s, Date)
    = if decide (s ∈ t_stock <$>
                       filter (λ t, market_open ≤ t_time t) (intraday_data self)
                 ∧ Date ∈ reference_dates)
      then Some None else None.
Proof.
  intros Ha Hnone.
  assert (rolling_series argsort
            (filter (λ t, t_stock t = s)
               (filter (λ t, market_open ≤ t_time t) (intraday_data self))) Date
          = []) as Hseries.
  { unfold rolling_series. rewrite stock_date_filter, Hnone.
    by rewrite sort_values_nil. }
  destruct (analysis_tables _ _ _ _ s Ha) as [H19 H22].
  split_and!.
  - intros ->. by rewrite H19.
  - intros ->. by rewrite H22.
  - rewrite (analyze_intraday_data_results _ _ _ _ _ _ Ha).
    case_decide; [|done]. unfold crossing_of. by rewrite Hseries.
Qed.

(** On [no_history] ABC has a tick on 19-04-2024 and none on 22-04-2024. *)
Lemma no_ticks_on_date_witness :
  retained_ticks no_history "ABC" "22-04-2024" = []
  ∧ ∃ a, (analyze_intraday_data argsort_merge ∅ no_history).1 = Some a
      ∧ series_in (all_rolling_data_22_df a) "ABC" = []
      ∧ crossing_results a !! ("ABC", "22-04-2024") = Some None.
Proof.
  assert (retained_ticks no_history "ABC" "22-04-2024" = []) as Hnone by reflexivity.
  split; [exact Hnone|]. eexists. split; [reflexivity|].
  destruct (no_ticks_on_date argsort_merge ∅ no_history _ "ABC" "22-04-2024"
              eq_refl Hnone) as (_ & H22 & Hres).
  split; [exact (H22 eq_refl)|]. rewrite Hres. reflexivity.
Defined.

(** C10, the failing input.  [analyze_intraday_data] returns exactly when some
    tick is at or after 09:15:00: with none the loops run over no group and
    [pd.concat] raises on the empty list of frames.  On [only_before_open]
    the stock ABC has no retained tick on 19-04-2024 and the analysis ends in
    that error. *)
Theorem analysis_raises_without_retained_ticks :
  (∀ (argsort : list Z → list nat) (avg_volumes : gmap (string * string) number)
     (self : StockAnalysis),
     (analyze_intraday_data argsort avg_volumes self).1 = None ↔
     filter (λ t, market_open ≤ t_time t) (intraday_data self) = [])
  ∧ retained_ticks only_before_open "ABC" "19-04-2024" = []
  ∧ (run_analysis argsort_merge only_before_open).1 = None.
Proof.
  split_and!; [|done..].
  intros argsort avg_volumes self. rewrite analyze_intraday_data_unfold. simpl.
  case_decide; split; done.
Qed.

(** ** A stock without history *)

(** C2, the failing input.  On [no_history] the average of ABC for 19-04-2024
    is NaN and is stored under its key, so [avg_volumes.get] returns NaN and
    not its default 0.  The only point of the series has the cumulative volume
    50, which is positive, and no crossing is recorded for it; against a zero
    threshold the same series has its crossing at 09:15:00. *)
Theorem no_history_no_crossing :
  filter (λ r, d_stock r = "ABC" ∧ d_date r < pd_Timestamp "19-04-2024")
    (daily_data no_history) = []
  ∧ calculate_30_day_avg argsort_merge no_history "ABC" (pd_Timestamp "19-04-2024") = NaN
  ∧ ∃ avg_volumes a,
      (run_analysis argsort_merge no_history).1 = Some (avg_volumes, a)
      ∧ avg_volumes !! ("ABC", "19-04-2024") = Some NaN
      ∧ cumulative_volume <$> all_rolling_data_19_df a = [50]
      ∧ crossing_results a !! ("ABC", "19-04-2024") = Some None
      ∧ first_exceed (all_rolling_data_19_df a) (Num 0) = Some (mk_time 9 15 0).
Proof.
  split; [done|]. split; [done|].
  eexists _, _. split; [reflexivity|]. by vm_compute.
Qed.

(** ** What the analysis does to the object *)

Lemma filter_id_iff {A} (P : A → Prop) `{!∀ x, Decision (P x)} (l : list A) :
  filter P l = l ↔ Forall P l.
Proof.
  split.
  - intros Heq. apply Forall_forall. intros x Hx. rewrite <-Heq in Hx.
    by apply list_elem_of_filter in Hx as [? _].
  - intros HP. apply filter_all. by apply Forall_forall.
Qed.

(** C9 (amended).  [analyze_intraday_data] leaves the daily table as it is
    and replaces the intraday table of the object by its ticks at or after
    09:15:00, in their order: the object is unchanged exactly when it holds no
    earlier tick.  Nothing else changes: the averages computed from the object
    before and after are the same, and running the analysis again on the
    object it left returns the same result and the same object.  The average
    of a stock is a function of the object and changes nothing. *)
Theorem analyze_intraday_data_frame (argsort : list Z → list nat)
    (avg_volumes : gmap (string * string) number) (self : StockAnalysis) :
  let out := analyze_intraday_data argsort avg_volumes self in
  daily_data out.2 = daily_data self
  ∧ intraday_data out.2 = filter (λ t, market_open ≤ t_time t) (intraday_data self)
  ∧ (out.2 = self ↔ Forall (λ t, market_open ≤ t_time t) (intraday_data self))
  ∧ get_avg_volumes argsort out.2 = get_avg_volumes argsort self
  ∧ analyze_intraday_data argsort avg_volumes out.2 = out.
Proof.
  intros out. unfold out. rewrite !analyze_intraday_data_unfold. simpl.
  split_and!; [done..| | |].
  - rewrite <-filter_id_iff. destruct self as [daily intraday]. simpl.
    split; [by intros [= ->]|by intros ->].
  - done.
  - by rewrite list_filter_filter_l by done.
Qed.

(** C9, counterexample.  The analysis returns, and the intraday table of the
    object has lost the tick of 09:00:00. *)
Lemma analysis_drops_early_ticks :
  is_Some (run_analysis argsort_merge with_early_tick).1
  ∧ intraday_data with_early_tick
    = [mkTick "ABC" 19832 (mk_time 9 0 0) 10; mkTick "ABC" 19832 (mk_time 9 15 0) 50]
  ∧ intraday_data (run_analysis argsort_merge with_early_tick).2
    = [mkTick "ABC" 19832 (mk_time 9 15 0) 50].
Proof. split; [by eexists|done]. Qed.

(** ** Past the window *)

Lemma cumulative_volume_zip ticks sums :
  length ticks = length sums →
  cumulative_volume <$> zip_with mkRow ticks sums = sums.
Proof.
  revert sums. induction ticks as [|t ticks IH]; intros [|c sums] Hlen; simplify_eq/=;
    [done|]. f_equal. by apply IH.
Qed.

(** The series of a table that is already in time order, without two ticks
    of the same second, all of the date. *)
Lemma rolling_series_of_sorted argsort `{!ArgsortSpec argsort} ticks Date :
  StronglySorted Z.le (t_time <$> ticks) → NoDup (t_time <$> ticks) →
  Forall (λ t, t_date t = pd_Timestamp Date) ticks →
  rolling_series argsort ticks Date
  = zip_with mkRow ticks (rolling_sum 3600 (t_qty <$> ticks)).
Proof.
  intros Hs Hnd Hdate. unfold rolling_series.
  rewrite (filter_all _ ticks) by (by apply Forall_forall).
  by rewrite (sort_values_sorted_id argsort).
Qed.

Lemma ticks_3601_times : t_time <$> ticks_3601 = seqZ market_open 3601.
Proof.
  unfold ticks_3601. rewrite fmap_cons, <-list_fmap_compose.
  rewrite (list_fmap_ext _ id (seqZ _ _)) by done. rewrite list_fmap_id.
  by rewrite (seqZ_cons market_open 3601).
Qed.

Lemma ticks_3601_quantities : t_qty <$> ticks_3601 = 100 :: replicate 3600 0.
Proof.
  unfold ticks_3601. rewrite fmap_cons, <-list_fmap_compose.
  rewrite (const_fmap _ (seqZ _ _) 0) by done. by rewrite length_seqZ.
Qed.

Lemma StronglySorted_seqZ m n : StronglySorted Z.le (seqZ m n).
Proof.
  revert m. induction n as [|n Hn IH|] using (Z.succ_pred_induction 0); intros m.
  - rewrite seqZ_nil by lia. constructor.
  - rewrite seqZ_cons by lia. rewrite Z.pred_succ. constructor; [apply IH|].
    apply Forall_seqZ. intros; lia.
  - rewrite seqZ_nil by lia. constructor.
Qed.

(** C6, counterexample.  No quantity is negative, the series has 3601 points,
    and the cumulative volume falls from 100 at the 3600th point to 0 at the
    3601st, where the first tick leaves the window. *)
Lemma rolling_series_decreases_past_window :
  let series := rolling_series argsort_merge ticks_3601 "19-04-2024" in
  Forall (λ t, 0 ≤ t_qty t) ticks_3601
  ∧ length series = 3601%nat
  ∧ cumulative_volume <$> series !! 3599%nat = Some 100
  ∧ cumulative_volume <$> series !! 3600%nat = Some 0.
Proof.
  intros series.
  assert (length (t_qty <$> ticks_3601) = 3601%nat) as Hlen.
  { rewrite ticks_3601_quantities. cbn [length]. by rewrite length_replicate. }
  assert (cumulative_volume <$> series = rolling_sum 3600 (t_qty <$> ticks_3601))
    as Hcum.
  { unfold series. rewrite (rolling_series_of_sorted argsort_merge).
    - apply cumulative_volume_zip. by rewrite rolling_sum_length, length_fmap.
    - rewrite ticks_3601_times. apply StronglySorted_seqZ.
    - rewrite ticks_3601_times. apply NoDup_seqZ.
    - unfold ticks_3601. constructor; [done|]. by apply Forall_fmap, Forall_true. }
  split_and!.
  - apply (Forall_fmap _ (λ q, 0 ≤ q)). rewrite ticks_3601_quantities.
    constructor; [lia|]. apply Forall_replicate. lia.
  - by rewrite <-(length_fmap cumulative_volume), Hcum, rolling_sum_length.
  - rewrite <-list_lookup_fmap, Hcum, rolling_sum_lookup by (rewrite Hlen; lia).
    by rewrite ticks_3601_quantities.
  - rewrite <-list_lookup_fmap, Hcum, rolling_sum_lookup by (rewrite Hlen; lia).
    by rewrite ticks_3601_quantities.
Qed.

(** ** Ticks of the same second *)

(** C8 (amended).  Under the contract of the sort, the ticks of the series
    are the ticks of the date in ascending order of time, each once.  Ticks of
    the same second come out next to one another in an order the program does
    not fix (it asks for no stable sort); when no two ticks of the date share
    a second, the order of the series is the same whatever sort meets the
    contract. *)
Theorem rolling_series_time_order argsort `{!ArgsortSpec argsort}
    (stock_data : list IntradayTick) (Date : string) :
  let day := filter (λ t, t_date t = pd_Timestamp Date) stock_data in
  let ticks := r_tick <$> rolling_series argsort stock_data Date in
  ticks = sort_values argsort t_time true day
  ∧ ticks ≡ₚ day
  ∧ StronglySorted Z.le (t_time <$> ticks)
  ∧ (NoDup (t_time <$> day) →
       ∀ argsort', ArgsortSpec argsort' →
         r_tick <$> rolling_series argsort' stock_data Date = ticks).
Proof.
  intros day ticks. unfold ticks. rewrite rolling_series_ticks. fold day.
  split_and!;
    [done|apply (sort_values_Permutation argsort)|apply (sort_values_ascending argsort)|].
  intros Hnd argsort' Hspec'. rewrite rolling_series_ticks. fold day.
  apply (sorted_NoDup_unique t_time).
  - by rewrite (sort_values_Permutation argsort').
  - by rewrite !sort_values_Permutation.
  - by apply sort_values_ascending.
  - by apply sort_values_ascending.
Qed.

(** On [three_ticks] the series is the three ticks in time order. *)
Lemma rolling_series_time_order_witness :
  ArgsortSpec argsort_merge
  ∧ r_tick <$> rolling_series argsort_merge three_ticks "19-04-2024"
      ≡ₚ filter (λ t, t_date t = pd_Timestamp "19-04-2024") three_ticks
  ∧ StronglySorted Z.le
      (t_time <$> (r_tick <$> rolling_series argsort_merge three_ticks "19-04-2024")).
Proof.
  split; [apply _|].
  destruct (rolling_series_time_order argsort_merge three_ticks "19-04-2024")
    as (_ & Hperm & Hsorted & _).
  split; [exact Hperm|exact Hsorted].
Defined.

(** C8, counterexample.  With numpy's quicksort the 18 ticks of the same
    second leave the sort in another order than they arrived in: the first
    partition exchanges them pairwise around the pivot.  And the contract
    alone fixes nothing: the merge sort [argsort_merge] meets it and puts
    the last of three ticks of the same second first. *)
Lemma same_second_order_not_kept :
  t_qty <$> same_second_18
    = [1; 2; 3; 4; 5; 6; 7; 8; 9; 10; 11; 12; 13; 14; 15; 16; 17; 18]
  ∧ t_qty ∘ r_tick <$> rolling_series argsort_quicksort same_second_18 "19-04-2024"
    = [1; 16; 15; 14; 13; 12; 11; 10; 9; 8; 7; 6; 5; 4; 3; 2; 17; 18]
  ∧ ArgsortSpec argsort_merge
  ∧ r_tick <$> rolling_series argsort_merge
                 [mkTick "ABC" 19832 (mk_time 9 15 0) 1;
                  mkTick "ABC" 19832 (mk_time 9 15 0) 2;
                  mkTick "ABC" 19832 (mk_time 9 15 0) 3] "19-04-2024"
    = [mkTick "ABC" 19832 (mk_time 9 15 0) 3;
       mkTick "ABC" 19832 (mk_time 9 15 0) 1;
       mkTick "ABC" 19832 (mk_time 9 15 0) 2].
Proof. split_and!; [by vm_compute..|apply _|by vm_compute]. Qed.

(** * Further properties of the program *)

(** ** The window of [calculate_30_day_avg] *)

Lemma filtered_data_within_window_elem (argsort : list Z → list nat)
    (self : StockAnalysis) (stock_name : string) (target_date : Timestamp) r :
  r ∈ filtered_data argsort self stock_name target_date →
  r ∈ daily_data self ∧ d_stock r = stock_name ∧ d_date r < target_date.
Proof.
  unfold filtered_data.
  intros Hr%subseteq_take%sort_values_elem_of%list_elem_of_filter. tauto.
Qed.

(** X3.  Whatever the sort, the rows averaged are rows of the daily table, of
    the stock asked for, dated strictly before the target date (the target
    date itself is never in the window), and there are at most 30 of them. *)
Theorem filtered_data_within_window (argsort : list Z → list nat)
    (self : StockAnalysis) (stock_name : string) (target_date : Timestamp) :
  (length (filtered_data argsort self stock_name target_date) ≤ 30)%nat
  ∧ ∀ r, r ∈ filtered_data argsort self stock_name target_date →
      r ∈ daily_data self ∧ d_stock r = stock_name ∧ d_date r < target_date.
Proof.
  split.
  - unfold filtered_data. rewrite length_take. lia.
  - apply filtered_data_within_window_elem.
Qed.

Lemma mean_NaN_iff values : mean values = NaN ↔ values = [].
Proof. by destruct values. Qed.

(** X4.  Under the contract of the sort, the average is NaN exactly when the
    stock has no daily row strictly before the target date; otherwise it is a
    number. *)
Theorem calculate_30_day_avg_NaN_iff argsort `{!ArgsortSpec argsort}
    (self : StockAnalysis) (stock_name : string) (target_date : Timestamp) :
  calculate_30_day_avg argsort self stock_name target_date = NaN ↔
  filter (λ r, d_stock r = stock_name ∧ d_date r < target_date) (daily_data self) = [].
Proof.
  unfold calculate_30_day_avg, filtered_data. rewrite mean_NaN_iff.
  set (eligible := filter _ (daily_data self)).
  split.
  - intros Hnil%fmap_nil_inv. apply (f_equal length) in Hnil.
    rewrite length_take, (sort_values_length argsort) in Hnil.
    apply length_zero_iff_nil. cbn [length] in Hnil. lia.
  - intros ->. by rewrite sort_values_nil.
Qed.

(** On [no_history] ABC has no row before 19-04-2024 and the average is NaN. *)
Lemma calculate_30_day_avg_NaN_iff_witness :
  ArgsortSpec argsort_merge
  ∧ calculate_30_day_avg argsort_merge no_history "ABC" 19832 = NaN.
Proof.
  split; [apply _|].
  by apply (calculate_30_day_avg_NaN_iff argsort_merge no_history "ABC" 19832).
Defined.

Lemma Zsum_bounds lo hi values :
  Forall (λ v, lo ≤ v ≤ hi) values →
  lo * Z.of_nat (length values) ≤ Zsum values ≤ hi * Z.of_nat (length values).
Proof.
  unfold Zsum. induction 1 as [|v values Hv _ IH]; [simpl; lia|].
  rewrite length_cons, Nat2Z.inj_succ. simpl. lia.
Qed.

(** The mean of a column that is not empty lies between any two bounds of
    its values. *)
Lemma mean_bounds lo hi values :
  values ≠ [] → Forall (λ v, lo ≤ v ≤ hi) values →
  ∃ q, mean values = Num q ∧ (Qc_of_Z lo ≤ q ∧ q ≤ Qc_of_Z hi)%Qc.
Proof.
  intros Hne Hb. apply Zsum_bounds in Hb.
  assert (0 < Z.of_nat (length values)) as Hlen by (destruct values; simpl; [done|lia]).
  assert (0 < Qc_of_Z (Z.of_nat (length values)))%Qc as Hn
    by (by rewrite <-Z2Qc_inj_0, <-Z2Qc_inj_lt).
  assert (Qc_of_Z (Z.of_nat (length values)) ≠ 0%Qc) as Hn0
    by (by apply not_symmetry, Qclt_not_eq).
  eexists. split; [by destruct values|]. split.
  - apply (Qcmult_le_mono_pos_l _ _ _ Hn).
    rewrite Qcmult_div_r, <-Z2Qc_inj_mul, <-Z2Qc_inj_le by done. lia.
  - apply (Qcmult_le_mono_pos_l _ _ _ Hn).
    rewrite Qcmult_div_r, <-Z2Qc_inj_mul, <-Z2Qc_inj_le by done. lia.
Qed.

(** X5.  Whatever the sort: when the volumes of the stock's rows before the
    target date lie between [lo] and [hi], the average is NaN (no row taken)
    or a number between [lo] and [hi]; in particular it is not negative
    when no volume is. *)
Theorem calculate_30_day_avg_bounds (argsort : list Z → list nat)
    (self : StockAnalysis) (stock_name : string) (target_date : Timestamp)
    (lo hi : Z) :
  (∀ r, r ∈ daily_data self → d_stock r = stock_name → d_date r < target_date →
        lo ≤ d_volume r ≤ hi) →
  calculate_30_day_avg argsort self stock_name target_date = NaN
  ∨ ∃ q, calculate_30_day_avg argsort self stock_name target_date = Num q
         ∧ (Qc_of_Z lo ≤ q ∧ q ≤ Qc_of_Z hi)%Qc.
Proof.
  intros Hb. unfold calculate_30_day_avg.
  destruct (decide (d_volume <$> filtered_data argsort self stock_name target_date = []))
    as [->|Hne]; [by left|right].
  apply mean_bounds; [done|]. apply Forall_fmap, Forall_forall. intros r Hr.
  apply filtered_data_within_window_elem in Hr as (? & ? & ?). by apply Hb.
Qed.

(** On [daily_only_ABC] the one volume before 19-04-2024 is 100, and so is the
    average. *)
Lemma calculate_30_day_avg_bounds_witness :
  (∀ r, r ∈ daily_data daily_only_ABC → d_stock r = "ABC" → d_date r < 19832 →
        100 ≤ d_volume r ≤ 100)
  ∧ (calculate_30_day_avg argsort_merge daily_only_ABC "ABC" 19832 = NaN
     ∨ ∃ q, calculate_30_day_avg argsort_merge daily_only_ABC "ABC" 19832 = Num q
            ∧ (Qc_of_Z 100 ≤ q ∧ q ≤ Qc_of_Z 100)%Qc).
Proof.
  assert (∀ r, r ∈ daily_data daily_only_ABC → d_stock r = "ABC" → d_date r < 19832 →
               100 ≤ d_volume r ≤ 100) as Hb.
  { intros r [->|Hr]%elem_of_cons _ _; [simpl; lia|by apply elem_of_nil in Hr]. }
  split; [exact Hb|].
  exact (calculate_30_day_avg_bounds argsort_merge daily_only_ABC "ABC" 19832 100 100 Hb).
Defined.

(** ** The table of averages as a whole *)

Lemma foldl_avg_volumes_size (calc : string → Timestamp → number)
    (keys : list string) (acc : gmap (string * string) number) :
  NoDup keys → (∀ s Date, s ∈ keys → acc !! (s, Date) = None) →
  size (foldl (λ avg_volumes stock_name,
                 <[(stock_name, "22-04-2024") :=
                     calc stock_name (pd_Timestamp "22-04-2024")]>
                   (<[(stock_name, "19-04-2024") :=
                       calc stock_name (pd_Timestamp "19-04-2024")]> avg_volumes))
              acc keys)
  = (size acc + 2 * length keys)%nat.
Proof.
  revert acc. induction keys as [|k keys IH]; intros acc Hnd Hfresh; cbn [foldl].
  { simpl. lia. }
  apply NoDup_cons in Hnd as [Hk Hnd]. rewrite IH; [|done|].
  - rewrite map_size_insert_None.
    + rewrite map_size_insert_None by (apply Hfresh; left). simpl. lia.
    + rewrite lookup_insert_ne by done. apply Hfresh. left.
  - intros s Date Hs. rewrite !lookup_insert_ne.
    + apply Hfresh. by right.
    + intros [= -> _]. done.
    + intros [= -> _]. done.
Qed.

(** X6.  The table of averages has an entry for a stock and a date exactly
    when the stock occurs in the daily table and the date is one of the two
    reference dates; the entry is the 30-day average of the stock at that
    date; and the table has two entries for each distinct stock, however
    often the stock occurs. *)
Theorem get_avg_volumes_entries (argsort : list Z → list nat)
    (self : StockAnalysis) (s Date : string) :
  (is_Some (get_avg_volumes argsort self !! (s, Date)) ↔
     s ∈ d_stock <$> daily_data self ∧ Date ∈ reference_dates)
  ∧ (∀ v, get_avg_volumes argsort self !! (s, Date) = Some v →
          v = calculate_30_day_avg argsort self s (pd_Timestamp Date))
  ∧ size (get_avg_volumes argsort self)
    = (2 * length (unique (d_stock <$> daily_data self)))%nat.
Proof.
  rewrite get_avg_volumes_lookup. split_and!.
  - case_decide; split; [done|by eauto|by intros []|done].
  - intros v. case_decide; by intros [= <-].
  - unfold get_avg_volumes.
    rewrite (foldl_avg_volumes_size (calculate_30_day_avg argsort self));
      [by rewrite map_size_empty|apply unique_NoDup|done].
Qed.

Lemma NoDup_fmap_inj {A B} (f : A → B) (l : list A) x y :
  NoDup (f <$> l) → x ∈ l → y ∈ l → f x = f y → x = y.
Proof.
  induction l as [|z l IH]; intros Hnd Hx Hy Hxy; [by apply elem_of_nil in Hx|].
  rewrite fmap_cons in Hnd. apply NoDup_cons in Hnd as [Hz Hnd].
  apply elem_of_cons in Hx as [->|Hx], Hy as [->|Hy].
  - done.
  - destruct Hz. rewrite Hxy. by apply list_elem_of_fmap_2.
  - destruct Hz. rewrite <-Hxy. by apply list_elem_of_fmap_2.
  - by apply IH.
Qed.

(** With one row per stock and day, the rows of a stock have distinct dates. *)
Lemma one_row_per_day_dates (daily : list DailyRecord) s target_date :
  NoDup ((λ r, (d_stock r, d_date r)) <$> daily) →
  NoDup (d_date <$> filter (λ r, d_stock r = s ∧ d_date r < target_date) daily).
Proof.
  intros Hnd. apply NoDup_fmap_2_strong.
  - intros x y [[Hx _] Hxin]%list_elem_of_filter [[Hy _] Hyin]%list_elem_of_filter Hd.
    apply (NoDup_fmap_inj _ _ _ _ Hnd); [done..|]. congruence.
  - apply NoDup_filter. by apply NoDup_fmap_1 in Hnd.
Qed.

(** X7.  Under the contract of the sort, when the daily table has one row per
    stock and day, rearranging its rows leaves the whole table of averages
    unchanged. *)
Theorem get_avg_volumes_Permutation argsort `{!ArgsortSpec argsort}
    (self self' : StockAnalysis) :
  daily_data self' ≡ₚ daily_data self →
  NoDup ((λ r, (d_stock r, d_date r)) <$> daily_data self) →
  get_avg_volumes argsort self' = get_avg_volumes argsort self.
Proof.
  intros Hp Hnd. apply map_eq. intros [s Date]. rewrite !get_avg_volumes_lookup.
  rewrite (decide_ext _ (s ∈ d_stock <$> daily_data self ∧ Date ∈ reference_dates))
    by (by rewrite Hp).
  case_decide; [|done]. f_equal. unfold calculate_30_day_avg, filtered_data.
  do 3 f_equal. apply (sort_values_unique argsort).
  - rewrite Hp. by apply one_row_per_day_dates.
  - by rewrite Hp.
Qed.

(** Two rows of ABC, given in either order. *)
Lemma get_avg_volumes_Permutation_witness :
  ArgsortSpec argsort_merge
  ∧ get_avg_volumes argsort_merge
      (mkSelf [mkDaily "ABC" 19831 300; mkDaily "ABC" 19830 100] [])
    = get_avg_volumes argsort_merge
        (mkSelf [mkDaily "ABC" 19830 100; mkDaily "ABC" 19831 300] []).
Proof.
  split; [apply _|].
  apply (get_avg_volumes_Permutation argsort_merge).
  - apply perm_swap.
  - simpl. apply NoDup_cons. split; [|apply NoDup_singleton].
    intros [=]%list_elem_of_singleton.
Defined.

(** ** The order of the stock names *)

Lemma string_compare_OT s1 s2 : String.compare s1 s2 = String_as_OT.compare s1 s2.
Proof.
  revert s2. induction s1 as [|c1 s1 IH]; intros [|c2 s2]; simpl; [done..|].
  rewrite IH. unfold Ascii.compare, Ascii_as_OT.compare, N_as_OT.compare.
  by destruct (N.compare (Ascii.N_of_ascii c1) (Ascii.N_of_ascii c2)).
Qed.

Global Instance string_le_total : Total string_le.
Proof. intros s1 s2. apply String.leb_total. Qed.

Global Instance string_le_antisymm : AntiSymm (=) string_le.
Proof. intros s1 s2. apply String.leb_antisym. Qed.

Global Instance string_le_refl : Reflexive string_le.
Proof. intros s. by destruct (total string_le s s). Qed.

Global Instance string_le_trans : Transitive string_le.
Proof.
  intros x y z. unfold string_le, String.leb.
  rewrite (string_compare_OT x y), (string_compare_OT y z), (string_compare_OT x z).
  destruct (String_as_OT.compare_spec x y) as [->|Hxy|Hxy]; [done| |done].
  destruct (String_as_OT.compare_spec y z) as [<-|Hyz|Hyz]; [|intros _ _|by intros _ ?].
  - unfold String_as_OT.lt in Hxy. by rewrite Hxy.
  - assert (String_as_OT.lt x z) as Hxz by (by etrans).
    unfold String_as_OT.lt in Hxz. by rewrite Hxz.
Qed.

(** ** The groups of [groupby] *)

(** Tables that hold, for each of the keys, the rows of that key make up the
    whole table when put together. *)
Lemma concat_groups_Permutation {A} (key : A → string) (f : string → list A)
    (keys : list string) (df : list A) :
  NoDup keys → (∀ x, x ∈ df → key x ∈ keys) →
  (∀ k, k ∈ keys → f k ≡ₚ filter (λ x, key x = k) df) →
  concat (f <$> keys) ≡ₚ df.
Proof.
  revert df. induction keys as [|k keys IH]; intros df Hnd Hin Hf.
  { destruct df as [|x df]; [done|]. exfalso. eapply elem_of_nil, (Hin x). left. }
  apply NoDup_cons in Hnd as [Hk Hnd]. rewrite fmap_cons. simpl.
  rewrite (Hf k) by left.
  rewrite (IH (filter (λ x, ¬ key x = k) df)); [apply filter_app_complement|done|..].
  - intros x [Hne Hx]%list_elem_of_filter.
    specialize (Hin x Hx). by apply elem_of_cons in Hin as [?|?].
  - intros k' Hk'. rewrite (Hf k') by (by right).
    rewrite list_filter_filter. apply reflexive_eq, list_filter_iff.
    intros x. split; [|tauto]. intros ->. split; [done|]. by intros ->.
Qed.

(** Tables given in ascending order of their keys, each holding rows of its
    key only, are in ascending key order when put together. *)
Lemma concat_groups_sorted {A} (key : A → string) (f : string → list A)
    (keys : list string) :
  StronglySorted string_le keys → (∀ k x, x ∈ f k → key x = k) →
  StronglySorted string_le (key <$> concat (f <$> keys)).
Proof.
  intros Hs Hf. induction Hs as [|k keys _ IH Hk]; [constructor|].
  rewrite fmap_cons. simpl. rewrite fmap_app. apply StronglySorted_app. split_and!.
  - intros k1 k2 (x1 & -> & Hx1)%list_elem_of_fmap (x2 & -> & Hx2)%list_elem_of_fmap.
    apply list_elem_of_In, in_concat in Hx2 as (l & Hl%list_elem_of_In & Hx2%list_elem_of_In).
    apply list_elem_of_fmap in Hl as (k' & -> & Hk').
    rewrite (Hf _ _ Hx1), (Hf _ _ Hx2). by apply (proj1 (Forall_forall _ _) Hk).
  - assert (Forall (λ x, key x = k) (f k)) as Hall by (apply Forall_forall, Hf).
    induction Hall as [|x l Hx Hall IHl]; [constructor|].
    rewrite fmap_cons. constructor; [done|]. apply Forall_fmap, Forall_forall.
    intros y Hy. simpl. rewrite Hx.
    rewrite (proj1 (Forall_forall _ _) Hall y Hy). done.
  - done.
Qed.

Lemma groupby_keys_sorted df : StronglySorted string_le (groupby df).*1.
Proof. rewrite groupby_keys. apply StronglySorted_merge_sort; apply _. Qed.

Lemma groupby_groups df :
  (groupby df).*2 = (λ k, filter (λ t, t_stock t = k) df) <$> (groupby df).*1.
Proof. unfold groupby. by rewrite <-!list_fmap_compose. Qed.

(** X8.  [groupby] splits the table: there is one group for each distinct
    stock of the table, the keys come in ascending order without repetition,
    the group of a stock holds the rows of that stock in table order, no
    group is empty, and the groups together hold every row of the table
    once. *)
Theorem groupby_partition (df : list IntradayTick) :
  NoDup (groupby df).*1
  ∧ StronglySorted string_le (groupby df).*1
  ∧ (∀ s stock_data, (s, stock_data) ∈ groupby df ↔
       s ∈ t_stock <$> df ∧ stock_data = filter (λ t, t_stock t = s) df)
  ∧ (∀ g, g ∈ groupby df → g.2 ≠ [])
  ∧ concat (groupby df).*2 ≡ₚ df.
Proof.
  split_and!.
  - apply groupby_NoDup.
  - apply groupby_keys_sorted.
  - apply elem_of_groupby.
  - intros [s stock_data] [Hs ->]%elem_of_groupby. simpl.
    apply list_elem_of_fmap in Hs as (t & -> & Ht). intros Hnil.
    by apply (filter_nil_not_elem_of _ _ t) in Hnil.
  - rewrite groupby_groups. apply (concat_groups_Permutation t_stock).
    + apply groupby_NoDup.
    + intros t Ht. apply elem_of_groupby_keys. by apply list_elem_of_fmap_2.
    + done.
Qed.

(** ** The tables of the two dates *)

Lemma fmap_concat_fmap {A B C} (h : B → C) (g : A → list B) (keys : list A) :
  h <$> concat (g <$> keys) = concat ((λ k, h <$> g k) <$> keys).
Proof.
  induction keys as [|k keys IH]; [done|].
  rewrite !fmap_cons. simpl. by rewrite fmap_app, IH.
Qed.

Lemma rolling_table_groups argsort Date df :
  concat ((λ g, rolling_series argsort g.2 Date) <$> groupby df)
  = concat ((λ k, rolling_series argsort (filter (λ t, t_stock t = k) df) Date)
              <$> (groupby df).*1).
Proof. unfold groupby. by rewrite <-!list_fmap_compose. Qed.

(** The table of a date holds the ticks of that date, each once. *)
Lemma rolling_table_ticks argsort `{!ArgsortSpec argsort} Date df :
  r_tick <$> concat ((λ g, rolling_series argsort g.2 Date) <$> groupby df)
  ≡ₚ filter (λ t, t_date t = pd_Timestamp Date) df.
Proof.
  rewrite rolling_table_groups, fmap_concat_fmap.
  apply (concat_groups_Permutation t_stock).
  - apply groupby_NoDup.
  - intros t [_ Ht]%list_elem_of_filter.
    apply elem_of_groupby_keys. by apply list_elem_of_fmap_2.
  - intros k _.
    rewrite (proj1 (rolling_series_sorted_perm argsort _ Date)).
    rewrite !list_filter_filter. apply reflexive_eq, list_filter_iff. tauto.
Qed.

(** The rows of the table of a date come stock after stock, in ascending
    order of the stock names. *)
Lemma rolling_table_sorted argsort Date df :
  StronglySorted string_le
    (t_stock ∘ r_tick <$>
       concat ((λ g, rolling_series argsort g.2 Date) <$> groupby df)).
Proof.
  rewrite rolling_table_groups.
  apply (concat_groups_sorted (t_stock ∘ r_tick)); [apply groupby_keys_sorted|].
  intros k row [Hin _]%rolling_series_elem_of.
  by apply list_elem_of_filter in Hin as [? _].
Qed.

(** X9.  Under the contract of the sort, when the analysis returns, the table
    of each reference date holds one row for every tick of that date at or
    after 09:15:00, of whatever stock, and no other row (ticks of another
    date are in neither table); its rows come stock after stock in ascending
    order of the stock names. *)
Theorem rolling_tables_rows argsort `{!ArgsortSpec argsort}
    (avg_volumes : gmap (string * string) number) (self : StockAnalysis)
    (a : Analysis) :
  (analyze_intraday_data argsort avg_volumes self).1 = Some a →
  let retained := filter (λ t, market_open ≤ t_time t) (intraday_data self) in
  r_tick <$> all_rolling_data_19_df a
    ≡ₚ filter (λ t, t_date t = pd_Timestamp "19-04-2024") retained
  ∧ r_tick <$> all_rolling_data_22_df a
    ≡ₚ filter (λ t, t_date t = pd_Timestamp "22-04-2024") retained
  ∧ StronglySorted string_le (t_stock ∘ r_tick <$> all_rolling_data_19_df a)
  ∧ StronglySorted string_le (t_stock ∘ r_tick <$> all_rolling_data_22_df a).
Proof.
  rewrite analyze_intraday_data_unfold. simpl. case_decide; [done|].
  intros [= <-]. simpl. split_and!.
  - apply (rolling_table_ticks argsort).
  - apply (rolling_table_ticks argsort).
  - apply rolling_table_sorted.
  - apply rolling_table_sorted.
Qed.

(** On [with_early_tick] the table of 19-04-2024 holds the tick of 09:15:00
    and not the one of 09:00:00. *)
Lemma rolling_tables_rows_witness :
  ArgsortSpec argsort_merge
  ∧ ∃ a, (analyze_intraday_data argsort_merge ∅ with_early_tick).1 = Some a
      ∧ r_tick <$> all_rolling_data_19_df a
        ≡ₚ filter (λ t, t_date t = pd_Timestamp "19-04-2024")
             (filter (λ t, market_open ≤ t_time t) (intraday_data with_early_tick)).
Proof.
  split; [apply _|]. eexists. split; [reflexivity|].
  exact (proj1 (rolling_tables_rows argsort_merge ∅ with_early_tick _ eq_refl)).
Defined.

(** ** The crossing recorded for a stock and a date *)

Lemma first_exceed_Some_split series baseline t :
  first_exceed series baseline = Some t ↔
  ∃ l1 row l2, series = l1 ++ row :: l2
    ∧ Forall (λ r, ¬ exceeds (cumulative_volume r) baseline) l1
    ∧ exceeds (cumulative_volume row) baseline
    ∧ t_time (r_tick row) = t.
Proof.
  induction series as [|r series IH].
  { split; [done|]. intros (l1 & row & l2 & Hs & _). by destruct l1. }
  rewrite first_exceed_cons. case_decide as Hr.
  - split.
    + intros [= <-]. by exists [], r, series.
    + intros ([|r' l1] & row & l2 & [= -> ->] & Hl1 & Hrow & <-); [done|].
      by apply Forall_cons in Hl1 as [? _].
  - rewrite IH. split.
    + intros (l1 & row & l2 & -> & Hl1 & Hrow & <-).
      exists (r :: l1), row, l2. split_and!; [done| |done..]. by constructor.
    + intros ([|r' l1] & row & l2 & [= -> ->] & Hl1 & Hrow & <-); [done|].
      apply Forall_cons in Hl1 as [_ Hl1]. by exists l1, row, l2.
Qed.

Lemma first_exceed_None_Forall series baseline :
  first_exceed series baseline = None ↔
  Forall (λ r, ¬ exceeds (cumulative_volume r) baseline) series.
Proof.
  induction series as [|r series IH]; [done|].
  rewrite first_exceed_cons, Forall_cons. case_decide; [|tauto].
  split; [done|tauto].
Qed.

Lemma exceeds_number x baseline : exceeds x baseline → ∃ q, baseline = Num q.
Proof. destruct baseline; [done|by eexists]. Qed.

(** X10.  A crossing time in the results is never made up: the date is a
    reference date, the baseline used is a number, and the time is that of a
    row of the stock's series for that date whose cumulative volume exceeds
    the baseline, which stands for a tick of that stock and date in the
    intraday table, at or after 09:15:00. *)
Theorem crossing_time_of_a_tick (argsort : list Z → list nat)
    (avg_volumes : gmap (string * string) number) (self : StockAnalysis)
    (a : Analysis) (s Date : string) (t : TimeOfDay) :
  (analyze_intraday_data argsort avg_volumes self).1 = Some a →
  crossing_results a !! (s, Date) = Some (Some t) →
  let avg_volume := default (Num 0) (avg_volumes !! (s, Date)) in
  Date ∈ reference_dates
  ∧ market_open ≤ t
  ∧ (∃ q, avg_volume = Num q)
  ∧ ∃ row,
      row ∈ rolling_series argsort
              (filter (λ t, t_stock t = s)
                 (filter (λ t, market_open ≤ t_time t) (intraday_data self))) Date
      ∧ t_time (r_tick row) = t
      ∧ exceeds (cumulative_volume row) avg_volume
      ∧ r_tick row ∈ retained_ticks self s Date.
Proof.
  intros Ha Ht avg_volume.
  rewrite (analyze_intraday_data_results _ _ _ _ _ _ Ha) in Ht.
  case_decide as Hk; [|done]. destruct Hk as [Hs HD]. injection Ht as Ht.
  unfold crossing_of in Ht. fold avg_volume in Ht.
  apply first_exceed_Some_split in Ht as (l1 & row & l2 & Hseries & _ & Hex & <-).
  assert (row ∈ rolling_series argsort
                  (filter (λ t, t_stock t = s)
                     (filter (λ t, market_open ≤ t_time t) (intraday_data self))) Date)
    as Hrow by (rewrite Hseries; apply elem_of_app; right; left).
  assert (r_tick row ∈ retained_ticks self s Date) as Htick.
  { rewrite <-stock_date_filter. apply list_elem_of_filter.
    by apply rolling_series_elem_of in Hrow as [? ?]. }
  split_and!; [done| |by eapply exceeds_number|by exists row].
  unfold retained_ticks in Htick. apply list_elem_of_filter in Htick. tauto.
Qed.

(** On [daily_only_ABC] the crossing of XYZ on 19-04-2024 is at 09:15:00. *)
Lemma crossing_time_of_a_tick_witness :
  ∃ a, (analyze_intraday_data argsort_merge
          (get_avg_volumes argsort_merge daily_only_ABC) daily_only_ABC).1 = Some a
    ∧ crossing_results a !! ("XYZ", "19-04-2024") = Some (Some (mk_time 9 15 0))
    ∧ market_open ≤ mk_time 9 15 0.
Proof.
  eexists. split; [reflexivity|].
  match goal with |- ?P ∧ _ => assert P as Ht by (by vm_compute) end.
  split; [exact Ht|].
  exact (proj1 (proj2 (crossing_time_of_a_tick argsort_merge
                         (get_avg_volumes argsort_merge daily_only_ABC) daily_only_ABC _
                         "XYZ" "19-04-2024" _ eq_refl Ht))).
Defined.

(** ** Bounds of the cumulative volume *)

Lemma Zsum_nonneg values : Forall (λ v, 0 ≤ v) values → 0 ≤ Zsum values.
Proof. unfold Zsum. induction 1; simpl; lia. Qed.

Lemma Zsum_lookup_le values i v :
  Forall (λ v, 0 ≤ v) values → values !! i = Some v → v ≤ Zsum values.
Proof.
  intros Hnn Hi. rewrite <-(take_drop_middle _ _ _ Hi), Zsum_app.
  rewrite <-(take_drop_middle _ _ _ Hi) in Hnn.
  apply Forall_app in Hnn as [H1 [_ H2]%Forall_cons].
  apply Zsum_nonneg in H1, H2. unfold Zsum in *. simpl. lia.
Qed.

Lemma Zsum_window_le values m d :
  Forall (λ v, 0 ≤ v) values → Zsum (take m (drop d values)) ≤ Zsum values.
Proof.
  intros Hnn.
  rewrite <-(take_drop d values) at 2. rewrite Zsum_app.
  rewrite <-(take_drop m (drop d values)) at 2. rewrite Zsum_app.
  assert (0 ≤ Zsum (take d values)) by (by apply Zsum_nonneg, Forall_take).
  assert (0 ≤ Zsum (drop m (drop d values)))
    by (by apply Zsum_nonneg, Forall_drop, Forall_drop).
  lia.
Qed.

(** With quantities that are not negative, the sum over a window of at least
    one value lies between the value the window ends with and the sum of the
    whole column. *)
Lemma window_sum_bounds window values i v :
  (0 < window)%nat → Forall (λ v, 0 ≤ v) values → values !! i = Some v →
  v ≤ window_sum window values i ≤ Zsum values.
Proof.
  intros Hw Hnn Hi. unfold window_sum. split; [|by apply Zsum_window_le].
  apply (Zsum_lookup_le _ (S i `min` window - 1)).
  - by apply Forall_take, Forall_drop.
  - rewrite lookup_take_lt, lookup_drop by lia. rewrite <-Hi. f_equal. lia.
Qed.

Lemma rolling_series_quantities argsort stock_data Date :
  t_qty <$> sort_values argsort t_time true
              (filter (λ t, t_date t = pd_Timestamp Date) stock_data)
  = t_qty ∘ r_tick <$> rolling_series argsort stock_data Date.
Proof. by rewrite list_fmap_compose, rolling_series_ticks. Qed.

Lemma rolling_series_bounds argsort `{!ArgsortSpec argsort} stock_data Date row :
  (∀ t, t ∈ stock_data → t_date t = pd_Timestamp Date → 0 ≤ t_qty t) →
  row ∈ rolling_series argsort stock_data Date →
  t_qty (r_tick row) ≤ cumulative_volume row
  ≤ Zsum (t_qty <$> filter (λ t, t_date t = pd_Timestamp Date) stock_data).
Proof.
  intros Hnn [i Hi]%list_elem_of_lookup.
  apply rolling_series_lookup in Hi as [Ht ->].
  rewrite <-(Zsum_Permutation _ _
    (fmap_Permutation t_qty _ _ (sort_values_Permutation argsort t_time true _))).
  apply window_sum_bounds; [lia| |by rewrite list_lookup_fmap, Ht].
  apply Forall_fmap, Forall_forall. intros t Hin. simpl.
  apply sort_values_elem_of, list_elem_of_filter in Hin as [? ?]. by apply Hnn.
Qed.

(** In a series of at most 3600 rows the cumulative volume of the last row
    is the total quantity of the ticks of the series. *)
Lemma rolling_series_last argsort `{!ArgsortSpec argsort} stock_data Date row :
  (length (rolling_series argsort stock_data Date) ≤ 3600)%nat →
  last (rolling_series argsort stock_data Date) = Some row →
  cumulative_volume row
  = Zsum (t_qty <$> filter (λ t, t_date t = pd_Timestamp Date) stock_data).
Proof.
  intros Hlen Hlast. rewrite last_lookup in Hlast.
  pose proof (lookup_lt_Some _ _ _ Hlast) as Hlt.
  apply rolling_series_lookup in Hlast as [_ ->].
  rewrite rolling_series_quantities. unfold window_sum.
  set (series := rolling_series argsort stock_data Date) in *.
  replace (S (pred (length series)) `min` 3600)%nat with (length series) by lia.
  replace (S (pred (length series)) - length series)%nat with 0%nat by lia.
  rewrite drop_0, take_ge by (by rewrite length_fmap).
  unfold series. rewrite <-rolling_series_quantities. apply Zsum_Permutation, fmap_Permutation.
  apply (sort_values_Permutation argsort).
Qed.

(** X11.  Under the contract of the sort and with quantities that are not
    negative, the cumulative volume of every row of a series is at least the
    quantity of its own tick and at most the total quantity of the ticks of
    the series (the window never counts a tick twice nor a tick of another
    date); and in a series of at most 3600 rows the last row carries exactly
    that total. *)
Theorem cumulative_volume_bounds argsort `{!ArgsortSpec argsort}
    (stock_data : list IntradayTick) (Date : string) :
  let series := rolling_series argsort stock_data Date in
  let total :=
    Zsum (t_qty <$> filter (λ t, t_date t = pd_Timestamp Date) stock_data) in
  (∀ t, t ∈ stock_data → t_date t = pd_Timestamp Date → 0 ≤ t_qty t) →
  (∀ row, row ∈ series → t_qty (r_tick row) ≤ cumulative_volume row ≤ total)
  ∧ (∀ row, (length series ≤ 3600)%nat → last series = Some row →
       cumulative_volume row = total).
Proof.
  intros series total Hnn. split.
  - intros row Hrow. by apply (rolling_series_bounds argsort).
  - intros row Hlen Hlast. by apply (rolling_series_last argsort).
Qed.

(** On [three_ticks] the row of 09:15:30 has quantity 1 and cumulative volume
    8, and the day's total is 13. *)
Lemma cumulative_volume_bounds_witness :
  ArgsortSpec argsort_merge
  ∧ (∀ t, t ∈ three_ticks → t_date t = pd_Timestamp "19-04-2024" → 0 ≤ t_qty t)
  ∧ mkRow (mkTick "ABC" 19832 (mk_time 9 15 30) 1) 8
      ∈ rolling_series argsort_merge three_ticks "19-04-2024"
  ∧ 1 ≤ 8 ≤ Zsum (t_qty <$> filter (λ t, t_date t = pd_Timestamp "19-04-2024")
                               three_ticks).
Proof.
  assert (∀ t, t ∈ three_ticks → t_date t = pd_Timestamp "19-04-2024" → 0 ≤ t_qty t)
    as Hnn.
  { intros t Ht _. unfold three_ticks in Ht.
    repeat (apply elem_of_cons in Ht as [->|Ht]; [simpl; lia|]).
    by apply elem_of_nil in Ht. }
  assert (mkRow (mkTick "ABC" 19832 (mk_time 9 15 30) 1) 8
            ∈ rolling_series argsort_merge three_ticks "19-04-2024") as Hrow.
  { apply (list_elem_of_lookup_2 _ 1%nat). reflexivity. }
  split; [apply _|]. split; [exact Hnn|]. split; [exact Hrow|].
  exact (proj1 (cumulative_volume_bounds argsort_merge three_ticks "19-04-2024" Hnn)
           _ Hrow).
Defined.

(** X12.  Under the contract of the sort and with quantities that are not
    negative: when the analysis returns, a stock whose ticks of a date at or
    after 09:15:00 trade in total no more than the baseline used for it has
    no crossing time recorded for that date. *)
Theorem no_crossing_within_baseline argsort `{!ArgsortSpec argsort}
    (avg_volumes : gmap (string * string) number) (self : StockAnalysis)
    (a : Analysis) (s Date : string) (q : Qc) :
  (analyze_intraday_data argsort avg_volumes self).1 = Some a →
  (∀ t, t ∈ retained_ticks self s Date → 0 ≤ t_qty t) →
  default (Num 0) (avg_volumes !! (s, Date)) = Num q →
  (Qc_of_Z (Zsum (t_qty <$> retained_ticks self s Date)) ≤ q)%Qc →
  ∀ t, crossing_results a !! (s, Date) ≠ Some (Some t).
Proof.
  intros Ha Hnn Havg Htotal t.
  rewrite (analyze_intraday_data_results _ _ _ _ _ _ Ha).
  case_decide as Hk; [|done]. intros [= Ht]. unfold crossing_of in Ht.
  rewrite Havg in Ht.
  apply first_exceed_Some_split in Ht as (l1 & row & l2 & Hseries & _ & Hex & _).
  assert (cumulative_volume row ≤ Zsum (t_qty <$> retained_ticks self s Date)) as Hle.
  { rewrite <-stock_date_filter. apply (rolling_series_bounds argsort).
    - intros tick Hin HD. apply Hnn. rewrite <-stock_date_filter.
      by apply list_elem_of_filter.
    - rewrite Hseries. apply elem_of_app. right. left. }
  simpl in Hex. apply Z2Qc_inj_le in Hle.
  apply (Qclt_not_le _ _ Hex). by etrans.
Qed.

(** The ticks of [three_ticks] trade 13 in total: a baseline of 13 is not
    exceeded. *)
Lemma no_crossing_within_baseline_witness :
  ArgsortSpec argsort_merge
  ∧ ∃ a, (analyze_intraday_data argsort_merge
            {[ ("ABC", "19-04-2024") := Num (Qc_of_Z 13) ]} (mkSelf [] three_ticks)).1
         = Some a
      ∧ ∀ t, crossing_results a !! ("ABC", "19-04-2024") ≠ Some (Some t).
Proof.
  split; [apply _|]. eexists. split; [reflexivity|].
  apply (no_crossing_within_baseline argsort_merge
           {[ ("ABC", "19-04-2024") := Num (Qc_of_Z 13) ]} (mkSelf [] three_ticks) _
           "ABC" "19-04-2024" (Qc_of_Z 13) eq_refl).
  - intros t Ht. vm_compute in Ht.
    repeat (apply elem_of_cons in Ht as [->|Ht]; [simpl; lia|]).
    by apply elem_of_nil in Ht.
  - by vm_compute.
  - by vm_compute.
Defined.

(** ** A stock that is not in the daily table *)

Lemma exceeds_zero x : exceeds x (Num 0) ↔ 0 < x.
Proof. simpl. by rewrite <-Z2Qc_inj_0, <-Z2Qc_inj_lt. Qed.

Lemma Zsum_zeros values : Forall (λ v, v = 0) values → Zsum values = 0.
Proof. unfold Zsum. induction 1; simpl; lia. Qed.

(** With quantities that are not negative, the first row whose cumulative
    volume is positive is the first row whose own quantity is. *)
Lemma first_exceed_zero_split argsort stock_data Date t :
  (∀ t, t ∈ stock_data → t_date t = pd_Timestamp Date → 0 ≤ t_qty t) →
  first_exceed (rolling_series argsort stock_data Date) (Num 0) = Some t →
  ∃ l1 row l2, rolling_series argsort stock_data Date = l1 ++ row :: l2
    ∧ Forall (λ r, t_qty (r_tick r) = 0) l1
    ∧ 0 < t_qty (r_tick row)
    ∧ t_time (r_tick row) = t.
Proof.
  intros Hnn (l1 & row & l2 & Hseries & Hl1 & Hrow & Ht)%first_exceed_Some_split.
  assert (Forall (λ v, 0 ≤ v)
            (t_qty ∘ r_tick <$> rolling_series argsort stock_data Date)) as Hqs.
  { apply Forall_fmap, Forall_forall. intros r [? ?]%rolling_series_elem_of.
    by apply Hnn. }
  assert (∀ i r, rolling_series argsort stock_data Date !! i = Some r →
            t_qty (r_tick r) ≤ cumulative_volume r) as Hown.
  { intros i r Hi. pose proof Hi as [_ ->]%rolling_series_lookup.
    rewrite rolling_series_quantities.
    apply window_sum_bounds; [lia|done|]. by rewrite list_lookup_fmap, Hi. }
  assert (Forall (λ r, t_qty (r_tick r) = 0) l1) as Hzero.
  { apply Forall_forall. intros r Hr.
    assert (r ∈ rolling_series argsort stock_data Date) as Hin
      by (rewrite Hseries; apply elem_of_app; by left).
    pose proof Hin as [i Hi]%list_elem_of_lookup.
    pose proof Hin as [? ?]%rolling_series_elem_of.
    specialize (Hown i r Hi). rewrite Forall_forall in Hl1.
    specialize (Hl1 r Hr). rewrite exceeds_zero in Hl1.
    assert (0 ≤ t_qty (r_tick r)) by (by apply Hnn). lia. }
  exists l1, row, l2. split_and!; [done..| |done].
  assert (rolling_series argsort stock_data Date !! length l1 = Some row) as Hi
    by (by rewrite Hseries, list_lookup_middle).
  apply rolling_series_lookup in Hi as [_ Hc]. apply (proj1 (exceeds_zero _)) in Hrow.
  rewrite rolling_series_quantities, window_sum_prefix, Hseries in Hc.
  rewrite fmap_app, fmap_cons in Hc.
  assert (Forall (λ v, v = 0) (t_qty ∘ r_tick <$> l1)) as Hz
    by (by apply Forall_fmap).
  rewrite (take_app_le _ _ (S (length l1) - 3600)) in Hc by (rewrite length_fmap; lia).
  rewrite (Zsum_zeros (take (S (length l1) - 3600) _)) in Hc by (by apply Forall_take).
  replace (S (length l1)) with (length (t_qty ∘ r_tick <$> l1) + 1)%nat in Hc
    by (rewrite length_fmap; lia).
  rewrite take_app_add, Zsum_app, (Zsum_zeros _ Hz) in Hc.
  simpl in Hc. unfold Zsum in Hc. simpl in Hc. lia.
Qed.

(** X13.  Under the contract of the sort and with quantities that are not
    negative: for a stock that is not in the daily table the threshold is 0
    (the default of [avg_volumes.get]), and the crossing time recorded for a
    reference date is the time of the earliest tick of the stock on that date,
    at or after 09:15:00, that trades a positive quantity; there is one
    exactly when such a tick exists. *)
Theorem unknown_stock_first_trade argsort `{!ArgsortSpec argsort}
    (self : StockAnalysis) (avg_volumes : gmap (string * string) number)
    (a : Analysis) (s Date : string) :
  (run_analysis argsort self).1 = Some (avg_volumes, a) →
  s ∉ d_stock <$> daily_data self →
  Date ∈ reference_dates →
  (∀ tick, tick ∈ retained_ticks self s Date → 0 ≤ t_qty tick) →
  (∀ t, crossing_results a !! (s, Date) = Some (Some t) →
     (∃ tick, tick ∈ retained_ticks self s Date ∧ 0 < t_qty tick ∧ t_time tick = t)
     ∧ ∀ tick, tick ∈ retained_ticks self s Date → 0 < t_qty tick → t ≤ t_time tick)
  ∧ ((∃ tick, tick ∈ retained_ticks self s Date ∧ 0 < t_qty tick) →
     ∃ t, crossing_results a !! (s, Date) = Some (Some t)).
Proof.
  unfold run_analysis.
  destruct (analyze_intraday_data argsort (get_avg_volumes argsort self) self)
    as [[a'|] self'] eqn:Hrun; [|done].
  intros [= <- ->] Hs HD Hnn.
  assert ((analyze_intraday_data argsort (get_avg_volumes argsort self) self).1
          = Some a) as Ha by (by rewrite Hrun).
  set (stock_data := filter (λ t, t_stock t = s)
                       (filter (λ t, market_open ≤ t_time t) (intraday_data self))).
  assert (∀ t, t ∈ stock_data → t_date t = pd_Timestamp Date → 0 ≤ t_qty t) as Hnn'.
  { intros t Hin Hd. apply Hnn. rewrite <-stock_date_filter.
    by apply list_elem_of_filter. }
  assert (default (Num 0) (get_avg_volumes argsort self !! (s, Date)) = Num 0) as Havg.
  { rewrite get_avg_volumes_lookup, decide_False; [done|tauto]. }
  destruct (rolling_series_sorted_perm argsort stock_data Date) as [Hperm Hsorted].
  unfold stock_data in Hperm at 2. rewrite stock_date_filter in Hperm.
  rewrite (analyze_intraday_data_results _ _ _ _ _ _ Ha).
  fold stock_data. unfold crossing_of. rewrite Havg. split.
  - intros t. case_decide as Hk; [|done]. intros [= Ht].
    apply (first_exceed_zero_split _ _ _ _ Hnn') in Ht
      as (l1 & row & l2 & Hseries & Hl1 & Hrow & <-).
    split.
    + exists (r_tick row). split_and!; [|done..].
      rewrite <-Hperm, Hseries. apply list_elem_of_fmap_2, elem_of_app. right. left.
    + intros tick Hin Hpos. rewrite <-Hperm, Hseries in Hin.
      apply list_elem_of_fmap in Hin as (row' & -> & Hin).
      rewrite Hseries, fmap_app, fmap_cons in Hsorted.
      apply StronglySorted_app in Hsorted as (_ & _ & Hsorted).
      apply StronglySorted_inv in Hsorted as [_ Hhd].
      apply elem_of_app in Hin as [Hin|Hin].
      * rewrite Forall_forall in Hl1. specialize (Hl1 _ Hin). lia.
      * apply elem_of_cons in Hin as [->|Hin]; [done|].
        apply (proj1 (Forall_forall _ _) Hhd).
        by apply (list_elem_of_fmap_2 (t_time ∘ r_tick)).
  - intros (tick & Hin & Hpos).
    assert (s ∈ t_stock <$> filter (λ t, market_open ≤ t_time t) (intraday_data self))
      as Hret.
    { unfold retained_ticks in Hin. apply list_elem_of_filter in Hin as [(<- & _ & ?) ?].
      apply list_elem_of_fmap_2. by apply list_elem_of_filter. }
    rewrite decide_True by done.
    destruct (first_exceed (rolling_series argsort stock_data Date) (Num 0))
      as [t|] eqn:Hf; [by exists t|].
    rewrite first_exceed_None_Forall, Forall_forall in Hf.
    rewrite <-Hperm in Hin. apply list_elem_of_fmap in Hin as (row & -> & Hin).
    destruct (Hf row Hin). apply exceeds_zero.
    pose proof (rolling_series_bounds argsort stock_data Date row Hnn' Hin). lia.
Qed.

(** On [daily_only_ABC] the stock XYZ is not in the daily table and its only
    tick on 19-04-2024 trades 50 at 09:15:00. *)
Lemma unknown_stock_first_trade_witness :
  ArgsortSpec argsort_merge
  ∧ ("XYZ" ∉ d_stock <$> daily_data daily_only_ABC)
  ∧ "19-04-2024" ∈ reference_dates
  ∧ (∀ tick, tick ∈ retained_ticks daily_only_ABC "XYZ" "19-04-2024" → 0 ≤ t_qty tick)
  ∧ ∃ avg_volumes a,
      (run_analysis argsort_merge daily_only_ABC).1 = Some (avg_volumes, a)
      ∧ ((∃ tick, tick ∈ retained_ticks daily_only_ABC "XYZ" "19-04-2024"
                  ∧ 0 < t_qty tick) →
         ∃ t, crossing_results a !! ("XYZ", "19-04-2024") = Some (Some t)).
Proof.
  assert ("XYZ" ∉ d_stock <$> daily_data daily_only_ABC) as Hs.
  { simpl. by intros [=]%list_elem_of_singleton. }
  assert ("19-04-2024" ∈ reference_dates) as HD by left.
  assert (∀ tick, tick ∈ retained_ticks daily_only_ABC "XYZ" "19-04-2024" →
                  0 ≤ t_qty tick) as Hnn.
  { intros tick Ht. vm_compute in Ht.
    apply elem_of_cons in Ht as [->|Ht]; [simpl; lia|by apply elem_of_nil in Ht]. }
  split_and!; [apply _|exact Hs|exact HD|exact Hnn|].
  eexists _, _. split; [reflexivity|].
  exact (proj2 (unknown_stock_first_trade argsort_merge daily_only_ABC _ _
                  "XYZ" "19-04-2024" eq_refl Hs HD Hnn)).
Defined.

(** ** Lowering the baseline *)

Lemma first_exceed_elem_of series baseline t :
  first_exceed series baseline = Some t →
  ∃ row, row ∈ series ∧ t_time (r_tick row) = t
         ∧ exceeds (cumulative_volume row) baseline.
Proof.
  intros (l1 & row & l2 & -> & _ & Hex & Ht)%first_exceed_Some_split.
  exists row. split_and!; [|done..]. apply elem_of_app. right. left.
Qed.

(** X14.  Of two baselines, the lower is crossed whenever the higher is, and
    on a series in ascending time order no later. *)
Theorem first_exceed_lower_baseline (series : list RollingRow) (q q' : Qc)
    (t' : TimeOfDay) :
  (q ≤ q')%Qc →
  first_exceed series (Num q') = Some t' →
  ∃ t, first_exceed series (Num q) = Some t
       ∧ (StronglySorted Z.le (t_time ∘ r_tick <$> series) → t ≤ t').
Proof.
  intros Hq. induction series as [|r series IH]; [done|].
  rewrite !first_exceed_cons.
  destruct (decide (exceeds (cumulative_volume r) (Num q'))) as [Hr'|Hr'].
  - intros [= <-]. rewrite decide_True by (by eapply Qcle_lt_trans).
    by eexists.
  - intros Ht'. case_decide as Hr.
    + eexists. split; [done|]. intros Hs. rewrite fmap_cons in Hs.
      apply StronglySorted_inv in Hs as [_ Hhd].
      apply first_exceed_elem_of in Ht' as (row & Hin & <- & _).
      apply (proj1 (Forall_forall _ _) Hhd).
      by apply (list_elem_of_fmap_2 (t_time ∘ r_tick)).
    + destruct (IH Ht') as (t & Ht & Hle). exists t. split; [done|].
      intros Hs. rewrite fmap_cons in Hs.
      apply StronglySorted_inv in Hs as [Hs _]. by apply Hle.
Qed.

(** On the series of [three_ticks] the baseline 7 is crossed at 09:15:30 and the
    baseline 0 is crossed as well. *)
Lemma first_exceed_lower_baseline_witness :
  (Qc_of_Z 0 ≤ Qc_of_Z 7)%Qc
  ∧ first_exceed (rolling_series argsort_merge three_ticks "19-04-2024")
      (Num (Qc_of_Z 7)) = Some (mk_time 9 15 30)
  ∧ ∃ t, first_exceed (rolling_series argsort_merge three_ticks "19-04-2024")
           (Num (Qc_of_Z 0)) = Some t
         ∧ (StronglySorted Z.le
              (t_time ∘ r_tick <$> rolling_series argsort_merge three_ticks "19-04-2024")
            → t ≤ mk_time 9 15 30).
Proof.
  assert (Qc_of_Z 0 ≤ Qc_of_Z 7)%Qc as Hq by (apply (proj1 (Z2Qc_inj_le 0 7)); lia).
  assert (first_exceed (rolling_series argsort_merge three_ticks "19-04-2024")
            (Num (Qc_of_Z 7)) = Some (mk_time 9 15 30)) as Hf by reflexivity.
  split; [exact Hq|]. split; [exact Hf|].
  exact (first_exceed_lower_baseline _ _ _ _ Hq Hf).
Defined.

(** ** The order of the rows of the intraday table *)

Lemma unique_Permutation l1 l2 : l1 ≡ₚ l2 → unique l1 ≡ₚ unique l2.
Proof.
  intros Hp. apply NoDup_Permutation; [apply unique_NoDup..|].
  intros x. by rewrite !unique_elem_of, Hp.
Qed.

Lemma groupby_keys_Permutation df df' : df' ≡ₚ df → (groupby df').*1 = (groupby df).*1.
Proof.
  intros Hp. apply (StronglySorted_unique string_le); [apply groupby_keys_sorted..|].
  rewrite !groupby_keys, !merge_sort_Permutation.
  by apply unique_Permutation, fmap_Permutation.
Qed.

(** When the ticks of the date have distinct times, the series does not
    depend on the order in which the ticks are given. *)
Lemma rolling_series_Permutation argsort `{!ArgsortSpec argsort}
    stock_data stock_data' Date :
  stock_data' ≡ₚ stock_data →
  NoDup (t_time <$> filter (λ t, t_date t = pd_Timestamp Date) stock_data) →
  rolling_series argsort stock_data' Date = rolling_series argsort stock_data Date.
Proof.
  intros Hp Hnd. unfold rolling_series.
  rewrite (sort_values_unique argsort t_time true
             (filter (λ t, t_date t = pd_Timestamp Date) stock_data')
             (filter (λ t, t_date t = pd_Timestamp Date) stock_data));
    [done|by rewrite Hp|by rewrite Hp].
Qed.

Lemma distinct_times (intraday : list IntradayTick) s Date :
  NoDup ((λ t, (t_stock t, t_date t, t_time t)) <$> intraday) →
  NoDup (t_time <$>
           filter (λ t, t_date t = pd_Timestamp Date)
             (filter (λ t, t_stock t = s)
                (filter (λ t, market_open ≤ t_time t) intraday))).
Proof.
  intros Hnd. apply NoDup_fmap_2_strong.
  - intros x y [Hxd [Hxs [_ Hx]%list_elem_of_filter]%list_elem_of_filter]%list_elem_of_filter
             [Hyd [Hys [_ Hy]%list_elem_of_filter]%list_elem_of_filter]%list_elem_of_filter Ht.
    apply (NoDup_fmap_inj _ _ _ _ Hnd); [done..|]. congruence.
  - do 3 apply NoDup_filter. by apply NoDup_fmap_1 in Hnd.
Qed.

Lemma rolling_table_Permutation argsort `{!ArgsortSpec argsort} Date df df' :
  df' ≡ₚ df →
  (∀ s, NoDup (t_time <$> filter (λ t, t_date t = pd_Timestamp Date)
                            (filter (λ t, t_stock t = s) df))) →
  concat ((λ g, rolling_series argsort g.2 Date) <$> groupby df')
  = concat ((λ g, rolling_series argsort g.2 Date) <$> groupby df).
Proof.
  intros Hp Hnd. rewrite !rolling_table_groups, (groupby_keys_Permutation df df' Hp).
  f_equal. apply list_fmap_ext. intros _ k _.
  apply (rolling_series_Permutation argsort); [by rewrite Hp|done].
Qed.

(** X15.  Under the contract of the sort, when no two ticks of a stock bear
    the same date and time, the result of the analysis (the two tables and
    the crossing results, or the error) does not depend on the order of the
    rows of the intraday table. *)
Theorem analyze_intraday_data_Permutation argsort `{!ArgsortSpec argsort}
    (avg_volumes : gmap (string * string) number) (self self' : StockAnalysis) :
  intraday_data self' ≡ₚ intraday_data self →
  NoDup ((λ t, (t_stock t, t_date t, t_time t)) <$> intraday_data self) →
  (analyze_intraday_data argsort avg_volumes self').1
  = (analyze_intraday_data argsort avg_volumes self).1.
Proof.
  intros Hp Hnd.
  set (retained := filter (λ t, market_open ≤ t_time t) (intraday_data self)).
  set (retained' := filter (λ t, market_open ≤ t_time t) (intraday_data self')).
  assert (retained' ≡ₚ retained) as Hr by (unfold retained, retained'; by rewrite Hp).
  assert (∀ Date s, NoDup (t_time <$> filter (λ t, t_date t = pd_Timestamp Date)
                                        (filter (λ t, t_stock t = s) retained)))
    as Htimes by (intros Date s; by apply distinct_times).
  destruct ((analyze_intraday_data argsort avg_volumes self').1) as [a'|] eqn:Ha';
    destruct ((analyze_intraday_data argsort avg_volumes self).1) as [a|] eqn:Ha.
  - pose proof (λ s Date, analyze_intraday_data_results argsort avg_volumes self' a'
                            s Date Ha') as Hres'.
    pose proof (λ s Date, analyze_intraday_data_results argsort avg_volumes self a
                            s Date Ha) as Hres.
    cbv zeta in Hres, Hres'. fold retained in Hres. fold retained' in Hres'.
    rewrite analyze_intraday_data_unfold in Ha, Ha'. cbv zeta in Ha, Ha'.
    fold retained in Ha. fold retained' in Ha'. simpl in Ha, Ha'.
    case_decide; [done|]. case_decide; [done|].
    injection Ha as <-. injection Ha' as <-. simpl in Hres, Hres'.
    f_equal. f_equal.
    + by apply (rolling_table_Permutation argsort).
    + by apply (rolling_table_Permutation argsort).
    + apply map_eq. intros [s Date]. rewrite Hres, Hres'.
      rewrite (decide_ext _ (s ∈ t_stock <$> retained ∧ Date ∈ reference_dates))
        by (by rewrite Hr).
      case_decide; [|done]. f_equal. unfold crossing_of. f_equal.
      apply (rolling_series_Permutation argsort); [by rewrite Hr|done].
  - rewrite analyze_intraday_data_unfold in Ha, Ha'. cbv zeta in Ha, Ha'.
    fold retained in Ha. fold retained' in Ha'. simpl in Ha, Ha'.
    destruct (decide (retained = [])) as [Hnil|]; [|done].
    rewrite Hnil in Hr. apply Permutation_nil_r in Hr.
    by rewrite decide_True in Ha'.
  - rewrite analyze_intraday_data_unfold in Ha, Ha'. cbv zeta in Ha, Ha'.
    fold retained in Ha. fold retained' in Ha'. simpl in Ha, Ha'.
    destruct (decide (retained' = [])) as [Hnil|]; [|done].
    rewrite Hnil in Hr. symmetry in Hr.
    apply Permutation_nil_r in Hr. by rewrite decide_True in Ha.
  - done.
Qed.

(** The ticks of [three_ticks], which have distinct times, given in another
    order. *)
Lemma analyze_intraday_data_Permutation_witness :
  ArgsortSpec argsort_merge
  ∧ (analyze_intraday_data argsort_merge ∅ (mkSelf [] (reverse three_ticks))).1
    = (analyze_intraday_data argsort_merge ∅ (mkSelf [] three_ticks)).1.
Proof.
  split; [apply _|].
  apply (analyze_intraday_data_Permutation argsort_merge ∅
           (mkSelf [] three_ticks) (mkSelf [] (reverse three_ticks))).
  - apply reverse_Permutation.
  - apply (bool_decide_unpack _). by vm_compute.
Defined.

(** ** One stock at a time *)

Lemma elem_of_stocks_filter (df : list IntradayTick) s :
  s ∈ t_stock <$> df ↔ filter (λ t, t_stock t = s) df ≠ [].
Proof.
  split.
  - intros (t & -> & Ht)%list_elem_of_fmap Hnil.
    by apply (filter_nil_not_elem_of _ _ t) in Hnil.
  - intros Hne. destruct (filter (λ t, t_stock t = s) df) as [|t l] eqn:Hf; [done|].
    assert (t ∈ filter (λ t, t_stock t = s) df) as [<- Hin]%list_elem_of_filter
      by (rewrite Hf; left).
    by apply list_elem_of_fmap_2.
Qed.

Lemma filter_stock_retained (intraday : list IntradayTick) s :
  filter (λ t, t_stock t = s) (filter (λ t, market_open ≤ t_time t) intraday)
  = filter (λ t, market_open ≤ t_time t) (filter (λ t, t_stock t = s) intraday).
Proof. rewrite !list_filter_filter. apply list_filter_iff. tauto. Qed.

(** X16.  What the analysis reports for a stock depends on the ticks of that
    stock and on its baseline only: two runs (that return) on tables that hold
    the same ticks of the stock, in the same order, with tables of averages
    that agree on the stock and the date, record the same crossing for them
    and build the same series for the stock on both dates, whatever the
    other stocks do. *)
Theorem stock_results_independent (argsort : list Z → list nat)
    (avg_volumes avg_volumes' : gmap (string * string) number)
    (self self' : StockAnalysis) (a a' : Analysis) (s Date : string) :
  (analyze_intraday_data argsort avg_volumes self).1 = Some a →
  (analyze_intraday_data argsort avg_volumes' self').1 = Some a' →
  filter (λ t, t_stock t = s) (intraday_data self')
    = filter (λ t, t_stock t = s) (intraday_data self) →
  avg_volumes' !! (s, Date) = avg_volumes !! (s, Date) →
  crossing_results a' !! (s, Date) = crossing_results a !! (s, Date)
  ∧ series_in (all_rolling_data_19_df a') s = series_in (all_rolling_data_19_df a) s
  ∧ series_in (all_rolling_data_22_df a') s = series_in (all_rolling_data_22_df a) s.
Proof.
  intros Ha Ha' Hticks Havg.
  assert (filter (λ t, t_stock t = s)
            (filter (λ t, market_open ≤ t_time t) (intraday_data self'))
          = filter (λ t, t_stock t = s)
              (filter (λ t, market_open ≤ t_time t) (intraday_data self))) as Hret
    by (by rewrite !filter_stock_retained, Hticks).
  destruct (analysis_tables _ _ _ _ s Ha) as [H19 H22].
  destruct (analysis_tables _ _ _ _ s Ha') as [H19' H22'].
  split_and!; [|by rewrite H19, H19', Hret|by rewrite H22, H22', Hret].
  rewrite (analyze_intraday_data_results _ _ _ _ _ _ Ha).
  rewrite (analyze_intraday_data_results _ _ _ _ _ _ Ha').
  rewrite Hret. unfold crossing_of. rewrite Havg.
  apply decide_ext. by rewrite !elem_of_stocks_filter, Hret.
Qed.

(** The ticks of ABC of [with_early_tick], alone and next to those of
    another stock. *)
Lemma stock_results_independent_witness :
  ∃ a a',
    (analyze_intraday_data argsort_merge ∅ with_early_tick).1 = Some a
    ∧ (analyze_intraday_data argsort_merge ∅
         (mkSelf [] (mkTick "XYZ" 19832 (mk_time 9 15 0) 7
                       :: intraday_data with_early_tick))).1 = Some a'
    ∧ crossing_results a' !! ("ABC", "19-04-2024")
      = crossing_results a !! ("ABC", "19-04-2024").
Proof.
  eexists _, _. split; [reflexivity|]. split; [reflexivity|].
  exact (proj1 (stock_results_independent argsort_merge ∅ ∅ with_early_tick
                  (mkSelf [] (mkTick "XYZ" 19832 (mk_time 9 15 0) 7
                                :: intraday_data with_early_tick))
                  _ _ "ABC" "19-04-2024" eq_refl eq_refl eq_refl eq_refl)).
Defined.

(** ** [run_analysis] *)

(** X17.  When [run_analysis] gets as far as its tables: the table of
    averages is that of [get_avg_volumes] on the loaded tables, the analysis
    is run with it, the object is left with its intraday table cut down to
    the ticks at or after 09:15:00, and the crossing of every stock with such
    a tick is measured, for each reference date, against the stock's 30-day
    average at that date when the stock is in the daily table (NaN included)
    and against 0 otherwise. *)
Theorem run_analysis_composition (argsort : list Z → list nat)
    (self : StockAnalysis) (avg_volumes : gmap (string * string) number)
    (a : Analysis) :
  (run_analysis argsort self).1 = Some (avg_volumes, a) →
  let retained := filter (λ t, market_open ≤ t_time t) (intraday_data self) in
  avg_volumes = get_avg_volumes argsort self
  ∧ (analyze_intraday_data argsort (get_avg_volumes argsort self) self).1 = Some a
  ∧ (run_analysis argsort self).2 = mkSelf (daily_data self) retained
  ∧ ∀ s Date, s ∈ t_stock <$> retained → Date ∈ reference_dates →
      crossing_results a !! (s, Date)
      = Some (first_exceed
                (rolling_series argsort (filter (λ t, t_stock t = s) retained) Date)
                (if decide (s ∈ d_stock <$> daily_data self)
                 then calculate_30_day_avg argsort self s (pd_Timestamp Date)
                 else Num 0)).
Proof.
  unfold run_analysis.
  destruct (analyze_intraday_data argsort (get_avg_volumes argsort self) self)
    as [[a'|] self'] eqn:Hrun; [|done].
  intros [= <- ->].
  assert ((analyze_intraday_data argsort (get_avg_volumes argsort self) self).1
          = Some a) as Ha by (by rewrite Hrun).
  split_and!; [done..| |].
  - simpl. pose proof (analyze_intraday_data_unfold argsort
                         (get_avg_volumes argsort self) self) as Hu.
    rewrite Hrun in Hu. by injection Hu as _ ->.
  - intros s Date Hs HD.
    rewrite (analyze_intraday_data_results _ _ _ _ _ _ Ha), decide_True by done.
    unfold crossing_of. rewrite get_avg_volumes_lookup. f_equal. f_equal.
    case_decide as Hk; case_decide as Hk'; try done; tauto.
Qed.

(** On [daily_only_ABC] the run returns its tables. *)
Lemma run_analysis_composition_witness :
  ∃ avg_volumes a,
    (run_analysis argsort_merge daily_only_ABC).1 = Some (avg_volumes, a)
    ∧ avg_volumes = get_avg_volumes argsort_merge daily_only_ABC.
Proof.
  eexists _, _. split; [reflexivity|].
  exact (proj1 (run_analysis_composition argsort_merge daily_only_ABC _ _ eq_refl)).
Defined.

(** ** What is printed *)

Lemma head_filter_split {A} (P : A → Prop) `{!∀ x, Decision (P x)} (l : list A) x :
  head (filter P l) = Some x ↔
  ∃ l1 l2, l = l1 ++ x :: l2 ∧ Forall (λ y, ¬ P y) l1 ∧ P x.
Proof.
  induction l as [|y l IH].
  { split; [done|]. intros (l1 & l2 & Hl & _). by destruct l1. }
  rewrite filter_cons. case_decide as Hy.
  - simpl. split.
    + intros [= ->]. by exists [], l.
    + intros ([|y' l1] & l2 & [= -> ->] & Hl1 & Hx); [done|].
      by apply Forall_cons in Hl1 as [? _].
  - rewrite IH. split.
    + intros (l1 & l2 & -> & Hl1 & Hx). exists (y :: l1), l2.
      split_and!; [done| |done]. by constructor.
    + intros ([|y' l1] & l2 & [= -> ->] & Hl1 & Hx); [done|].
      apply Forall_cons in Hl1 as [_ Hl1]. by exists l1, l2.
Qed.

(** X18.  When a crossing is found, the line printed never fails: it shows
    the crossing time and the cumulative volume of the first row of the
    series that bears that time.  That row is the crossing row itself, so
    that the volume printed exceeds the baseline, when no two rows of the
    series bear the same time. *)
Theorem printed_crossing_first_row (series : list RollingRow) (baseline : number)
    (t : TimeOfDay) :
  first_exceed series baseline = Some t →
  ∃ l1 row l2,
    series = l1 ++ row :: l2
    ∧ Forall (λ r, t_time (r_tick r) ≠ t) l1
    ∧ t_time (r_tick row) = t
    ∧ printed_crossing series baseline = Some (Some (t, cumulative_volume row))
    ∧ (NoDup (t_time ∘ r_tick <$> series) → exceeds (cumulative_volume row) baseline).
Proof.
  intros Hf. pose proof Hf as (row' & Hin & Ht & Hex)%first_exceed_elem_of.
  unfold printed_crossing. unfold first_exceed in Hf. rewrite Hf. simpl.
  destruct (head (first_exceed_row series t)) as [row|] eqn:Hrow.
  - apply head_filter_split in Hrow as (l1 & l2 & Hs & Hl1 & Hrt).
    exists l1, row, l2. split_and!; [done..|by simpl; rewrite Hrt|]. intros Hnd.
    assert (row ∈ series) as Hin' by (rewrite Hs; apply elem_of_app; right; left).
    rewrite list_fmap_compose in Hnd. apply NoDup_fmap_1 in Hnd as Hnd'.
    assert (r_tick row = r_tick row') as Heq.
    { apply (NoDup_fmap_inj t_time (r_tick <$> series));
        [done|by apply list_elem_of_fmap_2..|congruence]. }
    assert (row = row') as ->; [|done].
    apply (NoDup_fmap_inj r_tick series); done.
  - unfold first_exceed_row in Hrow. apply head_None in Hrow.
    by destruct (filter_nil_not_elem_of _ series row' Hrow Ht).
Qed.

(** On the series of [three_ticks] and the baseline 7 the crossing is at
    09:15:30, and the line printed shows it with the cumulative volume of a
    row of that time. *)
Lemma printed_crossing_first_row_witness :
  first_exceed (rolling_series argsort_merge three_ticks "19-04-2024")
    (Num (Qc_of_Z 7)) = Some (mk_time 9 15 30)
  ∧ ∃ row,
      t_time (r_tick row) = mk_time 9 15 30
      ∧ printed_crossing (rolling_series argsort_merge three_ticks "19-04-2024")
          (Num (Qc_of_Z 7)) = Some (Some (mk_time 9 15 30, cumulative_volume row)).
Proof.
  assert (first_exceed (rolling_series argsort_merge three_ticks "19-04-2024")
            (Num (Qc_of_Z 7)) = Some (mk_time 9 15 30)) as Hf by reflexivity.
  split; [exact Hf|].
  destruct (printed_crossing_first_row _ _ _ Hf) as (l1 & row & l2 & _ & _ & Ht & Hp & _).
  exists row. split; [exact Ht|exact Hp].
Defined.

(** With two rows of the same time the line printed shows the first of them,
    whose cumulative volume need not exceed the baseline. *)
Example printed_crossing_tied_rows :
  let series := rolling_series argsort_merge
                  [mkTick "ABC" 19832 (mk_time 9 15 0) 5;
                   mkTick "ABC" 19832 (mk_time 9 15 0) 5] "19-04-2024" in
  first_exceed series (Num (Qc_of_Z 7)) = Some (mk_time 9 15 0)
  ∧ printed_crossing series (Num (Qc_of_Z 7)) = Some (Some (mk_time 9 15 0, 5)).
Proof. split; reflexivity. Qed.


(** ** The rows of the file of averages *)

Lemma list_to_map_setitem {V} (k : string * string) (v : V) (d : list ((string * string) * V)) :
  (list_to_map (setitem k v d) : gmap (string * string) V) = <[k := v]> (list_to_map d).
Proof.
  induction d as [|[k' v'] d IH]; [done|]. simpl. case_decide as Hk.
  - subst k'. simpl. by rewrite insert_insert_eq.
  - simpl. by rewrite IH, insert_insert_ne.
Qed.

Lemma setitem_fresh {K V} `{EqDecision K} (k : K) (v : V) (d : list (K * V)) :
  k ∉ d.*1 → setitem k v d = d ++ [(k, v)].
Proof.
  induction d as [|[k' v'] d IH]; intros Hk; [done|]. simpl.
  rewrite fmap_cons in Hk. apply not_elem_of_cons in Hk as [Hne Hk].
  rewrite decide_False by done. by rewrite IH.
Qed.

Lemma foldl_setitem_fresh (calc : string → Timestamp → number)
    (keys : list string) (acc : list ((string * string) * number)) :
  NoDup keys → (∀ s Date, s ∈ keys → (s, Date) ∉ acc.*1) →
  foldl (λ avg_volumes stock_name,
           setitem (stock_name, "22-04-2024") (calc stock_name (pd_Timestamp "22-04-2024"))
             (setitem (stock_name, "19-04-2024")
                (calc stock_name (pd_Timestamp "19-04-2024")) avg_volumes))
        acc keys
  = acc ++ concat ((λ s, [((s, "19-04-2024"), calc s (pd_Timestamp "19-04-2024"));
                          ((s, "22-04-2024"), calc s (pd_Timestamp "22-04-2024"))])
                     <$> keys).
Proof.
  revert acc. induction keys as [|k keys IH]; intros acc Hnd Hfresh; cbn [foldl].
  { by rewrite app_nil_r. }
  apply NoDup_cons in Hnd as [Hk Hnd].
  rewrite (setitem_fresh (k, "19-04-2024")) by (apply Hfresh; left).
  rewrite (setitem_fresh (k, "22-04-2024")).
  - rewrite IH; [by rewrite fmap_cons, <-!app_assoc|done|].
    intros s Date Hs. rewrite !fmap_app, !elem_of_app. intros [[Hin|Hin]|Hin].
    + by apply (Hfresh s Date); [right|].
    + apply list_elem_of_singleton in Hin as [= -> _]. done.
    + apply list_elem_of_singleton in Hin as [= -> _]. done.
  - rewrite fmap_app, elem_of_app. intros [Hin|Hin].
    + by apply (Hfresh k "22-04-2024"); [left|].
    + by apply list_elem_of_singleton in Hin.
Qed.

Lemma foldl_setitem_to_map (calc : string → Timestamp → number)
    (keys : list string) (acc : list ((string * string) * number)) :
  (list_to_map
     (foldl (λ avg_volumes stock_name,
               setitem (stock_name, "22-04-2024")
                 (calc stock_name (pd_Timestamp "22-04-2024"))
                 (setitem (stock_name, "19-04-2024")
                    (calc stock_name (pd_Timestamp "19-04-2024")) avg_volumes))
            acc keys) : gmap (string * string) number)
  = foldl (λ avg_volumes stock_name,
             <[(stock_name, "22-04-2024") := calc stock_name (pd_Timestamp "22-04-2024")]>
               (<[(stock_name, "19-04-2024") :=
                   calc stock_name (pd_Timestamp "19-04-2024")]> avg_volumes))
          (list_to_map acc) keys.
Proof.
  revert acc. induction keys as [|k keys IH]; intros acc; cbn [foldl]; [done|].
  by rewrite IH, !list_to_map_setitem.
Qed.

(** X19.  The dict of averages, read in the order of its items as
    [save_to_csv] does, holds the same entries as the table of averages, and
    the rows made of it for the file come stock after stock in the order in
    which the stocks first occur in the daily table, each stock with its row
    for 19-04-2024 and then its row for 22-04-2024. *)
Theorem avg_volumes_data_rows (argsort : list Z → list nat) (self : StockAnalysis) :
  list_to_map (get_avg_volumes_items argsort self) = get_avg_volumes argsort self
  ∧ avg_volumes_data (get_avg_volumes_items argsort self)
    = concat ((λ s, [mkAverageVolumeRow s "19-04-2024"
                       (calculate_30_day_avg argsort self s (pd_Timestamp "19-04-2024"));
                     mkAverageVolumeRow s "22-04-2024"
                       (calculate_30_day_avg argsort self s (pd_Timestamp "22-04-2024"))])
                <$> unique (d_stock <$> daily_data self)).
Proof.
  split.
  - unfold get_avg_volumes_items, get_avg_volumes.
    by rewrite (foldl_setitem_to_map (calculate_30_day_avg argsort self)).
  - unfold get_avg_volumes_items, avg_volumes_data.
    rewrite (foldl_setitem_fresh (calculate_30_day_avg argsort self));
      [|apply unique_NoDup|intros ? ? _; apply not_elem_of_nil].
    rewrite app_nil_l, fmap_concat_fmap. done.
Qed.
